(** * OpenAPI document generation of node-red-openapi-generator

    A shallow embedding of [src/swagger/swagger.js]: the handler of
    [GET /http-api/swagger.json], its helpers ([convToSwaggerPath],
    [ensureLeadingSlash], [stripTerminalSlash], [csvStrToArray],
    [getStyleFromCollectionFormat]), [cleanupOpenAPISpec] and the constructor
    [SwaggerDoc] of the documentation nodes.

    Modelling conventions.
    - JavaScript strings are [string]s; case mapping, [trim] and the regular
      expression class [\w] act on ASCII, as they do on ASCII input.
    - JavaScript values are the inductive [JsVal]: JSON data plus [undefined]
      and the built-in members reached through [Object.prototype].  Objects
      are finite maps ([gmap string JsVal]); numbers are the integers.
    - A thrown exception is the outcome [Throw]; the code never inspects the
      exception, so one constructor is enough.
    - [DEFAULT_TEMPLATE] is a module-level object whose [components] member
      is shared with the document under construction; the handler therefore
      takes and returns the current contents of [DEFAULT_TEMPLATE]. *)

From Stdlib Require Import Ascii.
From stdpp Require Import gmap strings list fin_maps pretty.

Local Open Scope string_scope.

(** ** Strings *)

Module Str.

Definition is_char (a c : ascii) : bool := Ascii.eqb a c.

(** [s.startsWith(p)]. *)
Fixpoint startsWith (p s : string) : bool :=
  match p, s with
  | "", _ => true
  | String a p', String c s' => is_char a c && startsWith p' s'
  | String _ _, "" => false
  end.

(** [s.endsWith(p)]: some suffix of [s] is [p]. *)
Fixpoint endsWith (p s : string) : bool :=
  String.eqb s p ||
  match s with
  | "" => false
  | String _ t => endsWith p t
  end.

(** [s.slice(0, -1)]. *)
Definition slice_0_m1 (s : string) : string :=
  String.substring 0 (String.length s - 1) s.

(** The class [\w] of a regular expression without the [u] and [i] flags:
    [[A-Za-z0-9_]]. *)
Definition isWord (c : ascii) : bool :=
  let n := Ascii.N_of_ascii c in
  ((48 <=? n) && (n <=? 57) || (65 <=? n) && (n <=? 90) ||
   (97 <=? n) && (n <=? 122) || (n =? 95))%N.

(** The longest prefix of word characters: what [\w*] consumes. *)
Fixpoint takeWord (s : string) : string :=
  match s with
  | "" => ""
  | String c t => if isWord c then String c (takeWord t) else ""
  end.

Fixpoint drop (n : nat) (s : string) : string :=
  match n, s with
  | S k, String _ t => drop k t
  | _, _ => s
  end.

Definition upper_char (c : ascii) : ascii :=
  let n := Ascii.N_of_ascii c in
  if ((97 <=? n) && (n <=? 122))%N then Ascii.ascii_of_N (n - 32) else c.

Definition lower_char (c : ascii) : ascii :=
  let n := Ascii.N_of_ascii c in
  if ((65 <=? n) && (n <=? 90))%N then Ascii.ascii_of_N (n + 32) else c.

Fixpoint map (f : ascii -> ascii) (s : string) : string :=
  match s with
  | "" => ""
  | String c t => String (f c) (map f t)
  end.

Definition toUpperCase : string -> string := map upper_char.
Definition toLowerCase : string -> string := map lower_char.

(** White space removed by [trim]: TAB, LF, VT, FF, CR and SPACE. *)
Definition isSpace (c : ascii) : bool :=
  let n := Ascii.N_of_ascii c in
  ((9 <=? n) && (n <=? 13) || (n =? 32))%N.

Fixpoint trimStart (s : string) : string :=
  match s with
  | "" => ""
  | String c t => if isSpace c then trimStart t else s
  end.

Definition trim (s : string) : string :=
  String.rev (trimStart (String.rev (trimStart s))).

(** [s.split(sep)] for a one-character separator; [cur] is the piece being
    read. *)
Fixpoint split_go (sep : ascii) (cur : string) (s : string) : list string :=
  match s with
  | "" => [cur]
  | String c t =>
      if is_char sep c then cur :: split_go sep "" t
      else split_go sep (cur +:+ String c "") t
  end.

Definition split (sep : ascii) (s : string) : list string := split_go sep "" s.

(** The characters of a string, one string each: what [[...s]] iterates. *)
Fixpoint chars (s : string) : list string :=
  match s with
  | "" => []
  | String c t => String c "" :: chars t
  end.

End Str.

(** ** Path helpers (lines 45-50) *)

(** [const convToSwaggerPath = (x) => `/{${x.substring(2)}}`]. *)
Definition convToSwaggerPath (x : string) : string :=
  "/{" +:+ Str.drop 2 x +:+ "}".

(** [const ensureLeadingSlash = (url) => (url.startsWith('/') ? url : '/' + url)]. *)
Definition ensureLeadingSlash (url : string) : string :=
  if Str.startsWith "/" url then url else "/" +:+ url.

(** [const stripTerminalSlash = (url) =>
      (url.length > 1 && url.endsWith('/') ? url.slice(0, -1) : url)]. *)
Definition stripTerminalSlash (url : string) : string :=
  if (1 <? String.length url)%nat && Str.endsWith "/" url
  then Str.slice_0_m1 url else url.

(** A match of [regexColons = /\/:\w*/] at the very start of [s]: the
    matched text, [None] when [s] does not start with [/:]. *)
Definition match_regexColons (s : string) : option string :=
  match s with
  | String a (String b r) =>
      if Str.is_char "/" a && Str.is_char ":" b
      then Some (String a (String b (Str.takeWord r)))
      else None
  | _ => None
  end.

(** [s.replace(re, f)] for a global regular expression [re] that never
    matches the empty string.  [m s] is the match of [re] at the start of [s].
    The scan goes left to right; [skip] counts the characters of [s] that
    still belong to the match just replaced. *)
Fixpoint replace_go (m : string -> option string) (f : string -> string)
    (skip : nat) (s : string) : string :=
  match s with
  | "" => ""
  | String c t =>
      match skip with
      | S k => replace_go m f k t
      | O =>
          match m s with
          | Some x => f x +:+ replace_go m f (String.length x - 1) t
          | None => String c (replace_go m f 0 t)
          end
      end
  end.

Definition replaceAll (m : string -> option string) (f : string -> string)
    (s : string) : string :=
  replace_go m f 0 s.

(** [stripTerminalSlash(ensureLeadingSlash(url.replace(regexColons, convToSwaggerPath)))]
    (lines 87-89). *)
Definition endPoint (url : string) : string :=
  stripTerminalSlash
    (ensureLeadingSlash (replaceAll match_regexColons convToSwaggerPath url)).

(** The composed normalisation of the second claim. *)
Definition normalizePath (p : string) : string :=
  stripTerminalSlash (ensureLeadingSlash p).

(** ** JavaScript values *)

(** The values the handler reads and builds.  [JNative k] is the built-in
    member that a property read [o[k]] finds on [Object.prototype] when [o]
    has no own property [k] (a function, or the prototype itself for
    [__proto__]); it is not JSON data. *)
#[warnings="-register-all"]
Inductive JsVal : Type :=
| JUndefined
| JNull
| JBool (b : bool)
| JNum (n : Z)
| JStr (s : string)
| JArr (l : list JsVal)
| JObj (m : gmap string JsVal)
| JNative (name : string).

(** An evaluation either completes with a value or throws; the handler has a
    single [catch] that does not look at the exception. *)
Abbreviation Throw := None (only parsing).
Abbreviation Ok := Some (only parsing).

Module Js.

(** ToBoolean. *)
Definition truthy (v : JsVal) : bool :=
  match v with
  | JUndefined | JNull => false
  | JBool b => b
  | JNum n => negb (n =? 0)%Z
  | JStr s => negb (String.eqb s "")
  | JArr _ | JObj _ | JNative _ => true
  end.

(** [a || b]. *)
Definition or (a b : JsVal) : JsVal := if truthy a then a else b.

(** Destructuring default: [{ x = d } = o] takes [d] only for [undefined]. *)
Definition dflt (d v : JsVal) : JsVal :=
  match v with
  | JUndefined => d
  | _ => v
  end.

(** [v === s] for a string literal [s]. *)
Definition is_str (s : string) (v : JsVal) : bool :=
  match v with
  | JStr t => String.eqb t s
  | _ => false
  end.

(** The members every object inherits from [Object.prototype]. *)
Definition Object_prototype : list string :=
  [ "constructor"; "hasOwnProperty"; "isPrototypeOf"; "propertyIsEnumerable";
    "toLocaleString"; "toString"; "valueOf"; "__proto__";
    "__defineGetter__"; "__defineSetter__"; "__lookupGetter__";
    "__lookupSetter__" ].

Definition inherited (k : string) : JsVal :=
  if bool_decide (k ∈ Object_prototype) then JNative k else JUndefined.

(** [o[k]] on an object with own properties [m]: the own property, else
    the inherited member, else [undefined]. *)
Definition get_obj (m : gmap string JsVal) (k : string) : JsVal :=
  match m !! k with
  | Some v => v
  | None => inherited k
  end.

(** [v.k] for the member names the handler reads ([name], [in], [schema],
    [url], ...).  Reading a member of [undefined] or [null] throws; arrays,
    strings, numbers and booleans define none of these names. *)
Definition get (v : JsVal) (k : string) : option JsVal :=
  match v with
  | JUndefined | JNull => Throw
  | JObj m => Ok (get_obj m k)
  | _ => Ok (inherited k)
  end.

(** [o[k] = v] on an object created by an object literal: assigning to
    [__proto__] runs the inherited setter and creates no own property. *)
Definition set (m : gmap string JsVal) (k : string) (v : JsVal)
    : gmap string JsVal :=
  if String.eqb k "__proto__" then m else <[k := v]> m.

Definition indexed (l : list JsVal) : gmap string JsVal :=
  list_to_map (imap (λ i x, (pretty i, x)) l).

(** The own enumerable properties: what [Object.keys] lists and what an
    object spread [{...v}] copies.  Arrays and strings have their indices. *)
Definition own_props (v : JsVal) : gmap string JsVal :=
  match v with
  | JObj m => m
  | JArr l => indexed l
  | JStr s => indexed (JStr <$> Str.chars s)
  | _ => ∅
  end.

(** [Object.keys(v).length === 0], for a [v] other than [undefined] and
    [null] (every call site passes a truthy value). *)
Definition no_keys (v : JsVal) : bool := bool_decide (own_props v = ∅).

(** [typeof v === 'object']. *)
Definition typeof_object (v : JsVal) : bool :=
  match v with
  | JNull | JArr _ | JObj _ => true
  | JNative k => String.eqb k "__proto__"
  | _ => false
  end.

Definition native_toString (k : string) : string :=
  if String.eqb k "__proto__" then "[object Object]"
  else "function " +:+ (if String.eqb k "constructor" then "Object" else k)
       +:+ "() { [native code] }".

Fixpoint join (sep : string) (l : list string) : string :=
  match l with
  | [] => ""
  | [x] => x
  | x :: r => x +:+ sep +:+ join sep r
  end.

(** ToString, as string concatenation and property keys apply it. *)
Fixpoint toString (v : JsVal) : string :=
  match v with
  | JUndefined => "undefined"
  | JNull => "null"
  | JBool b => if b then "true" else "false"
  | JNum n => pretty n
  | JStr s => s
  | JArr l =>
      join ","
        ((fix elems (l : list JsVal) : list string :=
            match l with
            | [] => []
            | x :: r =>
                match x with
                | JUndefined | JNull => ""
                | _ => toString x
                end :: elems r
            end) l)
  | JObj _ => "[object Object]"
  | JNative k => native_toString k
  end.

(** The elements an array spread [[...v]] iterates; anything but an array
    or a string is not iterable. *)
Definition iterate (v : JsVal) : option (list JsVal) :=
  match v with
  | JArr l => Ok l
  | JStr s => Ok (JStr <$> Str.chars s)
  | _ => Throw
  end.

(** An object literal. *)
Definition obj (l : list (string * JsVal)) : JsVal := JObj (list_to_map l).

End Js.

(** ** The default template (lines 17-38) *)

Definition DEFAULT_components : gmap string JsVal :=
  list_to_map
    [ ("schemas", JObj ∅); ("responses", JObj ∅); ("parameters", JObj ∅);
      ("securitySchemes", JObj ∅) ].

Definition DEFAULT_info : JsVal :=
  Js.obj [ ("title", JStr "My Node-RED API"); ("version", JStr "1.0.0");
           ("description", JStr "A sample API") ].

Definition DEFAULT_servers : JsVal :=
  JArr [ Js.obj [ ("url", JStr "http://localhost:1880/");
                  ("description", JStr "Local server") ] ].

(** [DEFAULT_TEMPLATE] as the module is loaded. *)
Definition DEFAULT_TEMPLATE : gmap string JsVal :=
  list_to_map
    [ ("openapi", JStr "3.0.0"); ("info", DEFAULT_info);
      ("servers", DEFAULT_servers); ("paths", JObj ∅);
      ("components", JObj DEFAULT_components); ("tags", JArr []) ].

(** ** Helpers of the handler (lines 46-62) *)

(** [const trimAll = (ary) => ary.map((x) => x.trim())]. *)
Definition trimAll (ary : list string) : list string := Str.trim <$> ary.

(** [const csvStrToArray = (csvStr) => (csvStr ? trimAll(csvStr.split(',')) : [])];
    a truthy value that is not a string has no [split] to call. *)
Definition csvStrToArray (csvStr : JsVal) : option JsVal :=
  if Js.truthy csvStr then
    match csvStr with
    | JStr s => Ok (JArr (JStr <$> trimAll (Str.split "," s)))
    | _ => Throw
    end
  else Ok (JArr []).

Definition formatMap : gmap string JsVal :=
  list_to_map
    [ ("csv", JStr "simple"); ("ssv", JStr "spaceDelimited");
      ("tsv", JStr "pipeDelimited"); ("pipes", JStr "pipeDelimited");
      ("multi", JStr "form") ].

(** [return formatMap[collectionFormat] || 'simple']. *)
Definition getStyleFromCollectionFormat (collectionFormat : JsVal) : JsVal :=
  Js.or (Js.get_obj formatMap (Js.toString collectionFormat)) (JStr "simple").

(** ** Building one operation (lines 93-171) *)

(** The body of [.map((param) => { ... })] (lines 110-138). *)
Definition paramDef (param : JsVal) : option JsVal :=
  name ← Js.get param "name";
  loc ← Js.get param "in";
  required ← Js.get param "required";
  description ← Js.get param "description";
  let def : gmap string JsVal :=
    list_to_map
      [ ("name", name); ("in", loc);
        ("required", Js.or required (JBool false));
        ("description", Js.or description (JStr "")) ] in
  schema ← Js.get param "schema";
  if Js.truthy schema then Ok (JObj (<["schema" := schema]> def))
  else
    type ← Js.get param "type";
    if Js.truthy type then
      format ← Js.get param "format";
      items ← Js.get param "items";
      collectionFormat ← Js.get param "collectionFormat";
      let s0 : gmap string JsVal := {[ "type" := type ]} in
      let s1 := if Js.truthy format then <["format" := format]> s0 else s0 in
      let s2 :=
        if Js.is_str "array" type && Js.truthy items
        then <["items" := items]> s1 else s1 in
      let def1 := <["schema" := JObj s2]> def in
      if Js.truthy collectionFormat && Js.is_str "array" type then
        Ok (JObj
              (<["explode" := JBool (Js.is_str "multi" collectionFormat)]>
                 (<["style" := getStyleFromCollectionFormat collectionFormat]>
                    def1)))
      else Ok (JObj def1)
    else Ok (JObj def).

(** The entry built for one status (lines 150-162). *)
Definition responseEntry (responseDetails : JsVal) : option JsVal :=
  description ← Js.get responseDetails "description";
  schema ← Js.get responseDetails "schema";
  let r : gmap string JsVal :=
    {[ "description" := Js.or description (JStr "No description") ]} in
  if Js.truthy schema then
    Ok (JObj (<["content" :=
                 Js.obj [ ("application/json", Js.obj [ ("schema", schema) ]) ]
               ]> r))
  else Ok (JObj r).

(** One turn of [Object.keys(responses).forEach((status) => { ... })] on
    [operation.responses]. *)
Definition addResponse (status : string) (responseDetails : JsVal)
    (acc : option (gmap string JsVal)) : option (gmap string JsVal) :=
  out ← acc;
  r ← responseEntry responseDetails;
  Ok (Js.set out status r).

(** [operation.responses] after the loop of lines 148-164.  The statuses are
    distinct keys and every exception is the same, so the order of the
    iteration does not show in the result. *)
Definition processResponses (responses : JsVal) : option (gmap string JsVal) :=
  if Js.truthy responses && Js.typeof_object responses
  then map_fold addResponse (Ok ∅) (Js.own_props responses)
  else Ok ∅.

(** Lines 166-171. *)
Definition ensureResponse (out : gmap string JsVal) : gmap string JsVal :=
  if bool_decide (out = ∅)
  then Js.set out "200" (Js.obj [ ("description", JStr "Successful response") ])
  else out.

(** The default of [summary] in the destructuring of lines 93-101:
    [name || `${method.toUpperCase()} ${endPoint}`], evaluated only when the
    documentation node has no [summary]. *)
Definition summaryDefault (name method : JsVal) (ep : string) : option JsVal :=
  if Js.truthy name then Ok name
  else
    match method with
    | JStr m => Ok (JStr (Str.toUpperCase m +:+ " " +:+ ep))
    | _ => Throw
    end.

Definition operationSummary (name method : JsVal) (ep : string)
    (swaggerDocNode : JsVal) : option JsVal :=
  summary ← Js.get swaggerDocNode "summary";
  match summary with
  | JUndefined => summaryDefault name method ep
  | _ => Ok summary
  end.

(** Lines 142-145: the request body is kept when its [content] has a key. *)
Definition addRequestBody (requestBody : JsVal) (operation : gmap string JsVal)
    : option (gmap string JsVal) :=
  if Js.truthy requestBody then
    content ← Js.get requestBody "content";
    Ok (if negb (Js.no_keys (Js.or content (JObj ∅)))
        then <["requestBody" := requestBody]> operation
        else operation)
  else Ok operation.

(** The operation object of lines 93-171 for a route node with [name] and
    [method], converted path [ep] and documentation node [swaggerDocNode]. *)
Definition buildOperation (additionalParams name method : JsVal) (ep : string)
    (swaggerDocNode : JsVal) : option (gmap string JsVal) :=
  summary ← operationSummary name method ep swaggerDocNode;
  description ← Js.dflt (JStr "") <$> Js.get swaggerDocNode "description";
  tags ← Js.dflt (JStr "") <$> Js.get swaggerDocNode "tags";
  deprecated ← Js.dflt (JBool false) <$> Js.get swaggerDocNode "deprecated";
  parameters ← Js.dflt (JArr []) <$> Js.get swaggerDocNode "parameters";
  requestBody ← Js.dflt JNull <$> Js.get swaggerDocNode "requestBody";
  responses ← Js.dflt (JObj ∅) <$> Js.get swaggerDocNode "responses";
  aryTags ← csvStrToArray tags;
  ps ← Js.iterate parameters;
  qs ← Js.iterate additionalParams;
  defs ← mapM paramDef (ps ++ qs);
  let operation : gmap string JsVal :=
    list_to_map
      [ ("summary", summary); ("description", description); ("tags", aryTags);
        ("deprecated", deprecated); ("parameters", JArr defs);
        ("responses", JObj ∅) ] in
  withBody ← addRequestBody requestBody operation;
  out ← processResponses responses;
  Ok (<["responses" := JObj (ensureResponse out)]> withBody).

(** ** The handler of [/http-api/swagger.json] (lines 64-185) *)

(** What the handler reads from its host: [RED.settings], the nodes that
    [RED.nodes.eachNode] enumerates, and [RED.nodes.getNode]. *)
Record RED : Type := {
  settings : JsVal;
  nodes : list JsVal;
  getNode : JsVal -> JsVal
}.

(** [url.replace(/\/$/, '')]: one final slash is removed. *)
Definition replace_final_slash (url : string) : string :=
  if Str.endsWith "/" url then Str.slice_0_m1 url else url.

(** The callback of [resp.servers.map] (lines 73-76); a [url] that is not a
    string has no [replace] to call. *)
Definition adjustServer (httpNodeRoot server : JsVal) : option JsVal :=
  url ← Js.get server "url";
  match url with
  | JStr u =>
      Ok (JObj (<["url" := JStr (replace_final_slash u +:+ Js.toString httpNodeRoot)]>
                  (Js.own_props server)))
  | _ => Throw
  end.

(** Lines 71-77; only an array has the [map] that is called. *)
Definition adjustServers (httpNodeRoot : JsVal) (resp : gmap string JsVal)
    : option (gmap string JsVal) :=
  if Js.truthy httpNodeRoot && negb (Js.is_str "/" httpNodeRoot) then
    match Js.get_obj resp "servers" with
    | JArr l =>
        l' ← mapM (adjustServer httpNodeRoot) l;
        Ok (<["servers" := JArr l']> resp)
    | _ => Throw
    end
  else Ok resp.

(** The callback of [RED.nodes.eachNode] (lines 79-176) on [resp.paths].
    [resp.paths] is created by the handler and holds, under converted paths,
    the objects created at line 91: it is kept as a map from paths to maps
    from methods to operations.  A converted path starts with a slash, so it
    is neither [__proto__] nor a member inherited from [Object.prototype]
    (lemma [endPoint_own_key] below). *)
Definition visitNode (getNode : JsVal -> JsVal) (additionalParams : JsVal)
    (paths : gmap string (gmap string JsVal)) (node : JsVal)
    : option (gmap string (gmap string JsVal)) :=
  name ← Js.get node "name";
  type ← Js.get node "type";
  method ← Js.get node "method";
  swaggerDoc ← Js.get node "swaggerDoc";
  url ← Js.get node "url";
  if Js.is_str "http in" type && Js.truthy swaggerDoc then
    let swaggerDocNode := getNode swaggerDoc in
    if Js.truthy swaggerDocNode then
      match url with
      | JStr u =>
          let ep := endPoint u in
          let paths1 :=
            match paths !! ep with
            | Some _ => paths
            | None => <[ep := ∅]> paths
            end in
          operation ← buildOperation additionalParams name method ep swaggerDocNode;
          match method with
          | JStr m =>
              Ok (<[ep := Js.set (default ∅ (paths1 !! ep)) (Str.toLowerCase m)
                            (JObj operation)]> paths1)
          | _ => Throw
          end
      | _ => Throw
      end
    else Ok paths
  else Ok paths.

Fixpoint eachNode {S : Type} (visit : S -> JsVal -> option S) (s : S)
    (l : list JsVal) : option S :=
  match l with
  | [] => Ok s
  | node :: r => s' ← visit s node; eachNode visit s' r
  end.

(** One turn of the [forEach] of lines 190-194 on the object [spec.components]. *)
Definition pruneCategory (c : gmap string JsVal) (key : string)
    : gmap string JsVal :=
  let v := Js.get_obj c key in
  if Js.truthy v && Js.no_keys v then delete key c else c.

Definition categories : list string :=
  [ "schemas"; "responses"; "parameters"; "securitySchemes" ].

(** Lines 189-200.  The second component is the object [spec.components]
    after the deletions of line 192, which are made in place: that object is
    shared with whoever [spec.components] was copied from. *)
Definition cleanupComponents (spec : gmap string JsVal)
    : gmap string JsVal * option (gmap string JsVal) :=
  let components := Js.get_obj spec "components" in
  if Js.truthy components then
    match components with
    | JObj c =>
        let c' := foldl pruneCategory c categories in
        (if bool_decide (c' = ∅) then delete "components" spec
         else <["components" := JObj c']> spec, Some c')
    | _ =>
        (if Js.no_keys components then delete "components" spec else spec, None)
    end
  else (spec, None).

(** Lines 202-205. *)
Definition cleanupTags (spec : gmap string JsVal) : gmap string JsVal :=
  match Js.get_obj spec "tags" with
  | JArr [] => delete "tags" spec
  | _ => spec
  end.

(** [function cleanupOpenAPISpec(spec)] (lines 187-206). *)
Definition cleanupOpenAPISpec (spec : gmap string JsVal)
    : gmap string JsVal * option (gmap string JsVal) :=
  let '(spec1, shared) := cleanupComponents spec in
  (cleanupTags spec1, shared).

(** The destructuring of [RED.settings] at line 66: [httpNodeRoot], the
    template and the additional parameters.  Destructuring [undefined] or
    [null] throws. *)
Definition readSettings (settings : JsVal) : option (JsVal * JsVal * JsVal) :=
  httpNodeRoot ← Js.get settings "httpNodeRoot";
  openapi ← Js.dflt (JObj ∅) <$> Js.get settings "openapi";
  template ← Js.dflt (JObj ∅) <$> Js.get openapi "template";
  additionalParams ← Js.dflt (JArr []) <$> Js.get openapi "parameters";
  Ok (httpNodeRoot, template, additionalParams).

(** Lines 68-69: [{ ...DEFAULT_TEMPLATE, ...template }] with [paths] reset. *)
Definition baseDocument (defaults : gmap string JsVal) (template : JsVal)
    : gmap string JsVal :=
  <["paths" := JObj ∅]> (Js.own_props template ∪ defaults).

(** The body of the [try] block up to [res.json(resp)]: the document, and
    the contents of [DEFAULT_TEMPLATE] afterwards.  [defaults] is
    [DEFAULT_TEMPLATE] when the request arrives.  The spread of line 68
    copies the reference to [components]: unless the template of the
    settings has a member [components] of its own, the object that
    [cleanupOpenAPISpec] prunes is the one of [DEFAULT_TEMPLATE]. *)
Definition generate (defaults : gmap string JsVal) (red : RED)
    : option (gmap string JsVal * gmap string JsVal) :=
  '(httpNodeRoot, template, additionalParams) ← readSettings (settings red);
  resp ← adjustServers httpNodeRoot (baseDocument defaults template);
  paths ← eachNode (visitNode (getNode red) additionalParams) ∅ (nodes red);
  let '(doc, shared) :=
    cleanupOpenAPISpec (<["paths" := JObj (JObj <$> paths)]> resp) in
  let defaults' :=
    match Js.own_props template !! "components", shared with
    | None, Some c' => <["components" := JObj c']> defaults
    | _, _ => defaults
    end in
  Ok (doc, defaults').

(** What [res] is told: the status and the value given to [res.json]. *)
Record Response : Type := {
  status : nat;
  body : JsVal
}.

Definition internalServerError : Response :=
  {| status := 500;
     body := Js.obj [ ("error", JStr "Internal server error") ] |}.

(** The handler with its [try]/[catch] (lines 64-185): the response and
    [DEFAULT_TEMPLATE] afterwards. *)
Definition handler (defaults : gmap string JsVal) (red : RED)
    : Response * gmap string JsVal :=
  match generate defaults red with
  | Some (doc, defaults') => ({| status := 200; body := JObj doc |}, defaults')
  | None => (internalServerError, defaults)
  end.

(** The states [DEFAULT_TEMPLATE] can be in: as loaded, or as a request
    left it. *)
Inductive reachable : gmap string JsVal -> Prop :=
| reachable_init : reachable DEFAULT_TEMPLATE
| reachable_step defaults red :
    reachable defaults -> reachable (handler defaults red).2.

(** ** The documentation node (lines 208-217) *)

(** [function SwaggerDoc(n)].  [this] is the node object as
    [RED.nodes.createNode(this, n)] left it; the result is that object once
    the seven members are assigned.  Reading a member of an [undefined] or
    [null] configuration throws. *)
Definition SwaggerDoc (this : gmap string JsVal) (n : JsVal)
    : option (gmap string JsVal) :=
  summary ← Js.get n "summary";
  let this := Js.set this "summary" summary in
  description ← Js.get n "description";
  let this := Js.set this "description" description in
  tags ← Js.get n "tags";
  let this := Js.set this "tags" tags in
  parameters ← Js.get n "parameters";
  let this := Js.set this "parameters" (Js.or parameters (JArr [])) in
  responses ← Js.get n "responses";
  let this := Js.set this "responses" (Js.or responses (JObj ∅)) in
  requestBody ← Js.get n "requestBody";
  let this := Js.set this "requestBody" (Js.or requestBody JNull) in
  deprecated ← Js.get n "deprecated";
  let this := Js.set this "deprecated" (Js.or deprecated (JBool false)) in
  Ok this.

(** ** Notions used by the statements *)

(** [nullish v]: [v] is [undefined] or [null]. *)
Definition nullish (v : JsVal) : bool :=
  match v with
  | JUndefined | JNull => true
  | _ => false
  end.

Definition defined (v : JsVal) : bool :=
  match v with
  | JUndefined => false
  | _ => true
  end.

Fixpoint allb (P : ascii -> bool) (s : string) : bool :=
  match s with
  | "" => true
  | String c t => P c && allb P t
  end.

Definition headb (P : ascii -> bool) (s : string) : bool :=
  match s with
  | "" => true
  | String c _ => P c
  end.

(** *** Path parameters *)

(** [s.match(re)] for a global regular expression [re] that never matches
    the empty string: the matched texts from left to right.  [m] and [skip]
    are as in [replace_go]. *)
Fixpoint matches_go (m : string -> option string) (skip : nat) (s : string)
    : list string :=
  match s with
  | "" => []
  | String c t =>
      match skip with
      | S k => matches_go m k t
      | O =>
          match m s with
          | Some x => x :: matches_go m (String.length x - 1) t
          | None => matches_go m 0 t
          end
      end
  end.

Definition matchAll (m : string -> option string) (s : string) : list string :=
  matches_go m 0 s.

(** A brace parameter [/{name}] at the very start of [s], that is a match of
    [/\/\{\w*\}/]. *)
Definition match_brace (s : string) : option string :=
  match s with
  | String a (String b r) =>
      let w := Str.takeWord r in
      if Str.is_char "/" a && Str.is_char "{" b
         && Str.startsWith "}" (Str.drop (String.length w) r)
      then Some (String a (String b (w +:+ "}")))
      else None
  | _ => None
  end.

(** The names of the colon parameters [/:name] of a text, in order. *)
Definition colonParams (s : string) : list string :=
  Str.drop 2 <$> matchAll match_regexColons s.

(** The names of the brace parameters [/{name}] of a text, in order. *)
Definition braceParams (s : string) : list string :=
  (λ x, Str.takeWord (Str.drop 2 x)) <$> matchAll match_brace s.

(** The first claim for one template: the path key has the template's colon
    parameters as brace parameters, and no colon parameter. *)
Definition path_claim (url : string) : Prop :=
  braceParams (endPoint url) = colonParams url ∧ colonParams (endPoint url) = [].

(** *** Summary *)

Definition firstDefined (l : list JsVal) : JsVal :=
  default JUndefined (head (filter (λ v, defined v = true) l)).

(** The summary as the third claim words it: the first defined of the
    record's summary, the record's [name], and method and path. *)
Definition claimedSummary (doc : gmap string JsVal) (method ep : string) : JsVal :=
  firstDefined [ Js.get_obj doc "summary"; Js.get_obj doc "name";
                 JStr (Str.toUpperCase method +:+ " " +:+ ep) ].

Definition summary_claim (name : JsVal) (method ep : string)
    (doc : gmap string JsVal) : Prop :=
  ∀ ap op, buildOperation ap name (JStr method) ep (JObj doc) = Ok op →
    op !! "summary" = Some (claimedSummary doc method ep).

(** *** Responses and parameters *)

Definition successfulResponse : gmap string JsVal :=
  {[ "200" := Js.obj [ ("description", JStr "Successful response") ] ]}.

(** A parameter whose collection format is the name of a member inherited
    from [Object.prototype]. *)
Definition inheritedFormatParam : JsVal :=
  Js.obj [ ("name", JStr "ids"); ("in", JStr "query"); ("type", JStr "array");
           ("collectionFormat", JStr "constructor") ].

(** A documentation record that builds without an exception: [tags] is a
    string or absent, [parameters] is an array of objects or absent, and
    [responses] is a mapping of objects or absent. *)
Definition wellFormedRecord (doc : gmap string JsVal) : Prop :=
  (Js.get_obj doc "tags" = JUndefined ∨ ∃ s, Js.get_obj doc "tags" = JStr s) ∧
  (∃ ps, Js.dflt (JArr []) (Js.get_obj doc "parameters") = JArr ps ∧
         Forall (λ p, nullish p = false) ps) ∧
  (∃ r, Js.dflt (JObj ∅) (Js.get_obj doc "responses") = JObj r ∧
        ∀ k v, r !! k = Some v → nullish v = false).

(** *** Servers *)

(** [httpNodeRoot && httpNodeRoot !== '/']. *)
Definition nonTrivialPrefix (httpNodeRoot : JsVal) : bool :=
  Js.truthy httpNodeRoot && negb (Js.is_str "/" httpNodeRoot).

(** [u'] is [u] without one final slash, if [u] has one. *)
Definition stripped (u u' : string) : Prop :=
  u = u' +:+ "/" ∨ (Str.endsWith "/" u = false ∧ u' = u).

(** [server'] is [server] with the final slash of its [url] removed and the
    prefix appended, every other member kept. *)
Definition prefixed (prefix : string) (server server' : JsVal) : Prop :=
  ∃ m u u', server = JObj m ∧ m !! "url" = Some (JStr u) ∧ stripped u u' ∧
            server' = JObj (<["url" := JStr (u' +:+ prefix)]> m).

(** *** Routes and documents *)

(** The test of lines 82-85: an [http in] node whose [swaggerDoc] resolves. *)
Definition documented (getNode : JsVal → JsVal) (node : JsVal) : bool :=
  match Js.get node "type", Js.get node "swaggerDoc" with
  | Some type, Some swaggerDoc =>
      Js.is_str "http in" type && Js.truthy swaggerDoc
      && Js.truthy (getNode swaggerDoc)
  | _, _ => false
  end.

Definition noRoutesDocumented (red : RED) : Prop :=
  Forall (λ node, nullish node = false ∧ documented (getNode red) node = false)
    (nodes red).

(** The default template restricted to [openapi], [info] and [servers], with
    an empty [paths]. *)
Definition minimalDocument : gmap string JsVal :=
  <["paths" := JObj ∅]>
    (filter (λ kv, kv.1 ∈ ["openapi"; "info"; "servers"]) DEFAULT_TEMPLATE).

Definition ok200 (doc : gmap string JsVal) : Response :=
  {| status := 200; body := JObj doc |}.

(** Settings with the base path [/api] and nothing else; no node. *)
Definition apiPrefixExample : RED :=
  {| settings := Js.obj [ ("httpNodeRoot", JStr "/api") ];
     nodes := [];
     getNode := λ _, JNull |}.

(** The sixth claim for one host: no template, no additional parameter and
    no documented route give the minimal document. *)
Definition minimal_claim (red : RED) : Prop :=
  ∀ root template defaults,
    readSettings (settings red) = Ok (root, template, JArr []) →
    Js.own_props template = ∅ → noRoutesDocumented red → reachable defaults →
    (handler defaults red).1 = ok200 minimalDocument.

(** [DEFAULT_TEMPLATE] once a request has pruned its [components]. *)
Definition prunedDefaults : gmap string JsVal :=
  <["components" := JObj ∅]> DEFAULT_TEMPLATE.

(** Every documented route has its converted path in the document. *)
Definition complete (red : RED) (doc : gmap string JsVal) : Prop :=
  ∃ paths : gmap string (gmap string JsVal),
    doc !! "paths" = Some (JObj (JObj <$> paths)) ∧
    ∀ node, node ∈ nodes red → documented (getNode red) node = true →
      ∃ u, Js.get node "url" = Ok (JStr u) ∧ is_Some (paths !! endPoint u).

(** [truthy v && Object.keys(v).length === 0]: the test of line 191. *)
Definition prunable (v : JsVal) : bool := Js.truthy v && Js.no_keys v.

(** *** Example hosts *)

(** One node that is not an HTTP route. *)
Definition noRoutesExample : RED :=
  {| settings := Js.obj [];
     nodes := [ Js.obj [ ("type", JStr "inject"); ("name", JStr "tick") ] ];
     getNode := λ _, JNull |}.

Definition listUsersDoc : JsVal := Js.obj [ ("summary", JStr "List users") ].

(** A documentation node whose [tags] is a number: [tags.split] is not a
    function. *)
Definition brokenDoc : JsVal := Js.obj [ ("tags", JNum 5) ].

Definition listUsersRoute : JsVal :=
  Js.obj [ ("type", JStr "http in"); ("method", JStr "get");
           ("url", JStr "/users"); ("swaggerDoc", JStr "doc1") ].

Definition brokenRoute : JsVal :=
  Js.obj [ ("type", JStr "http in"); ("method", JStr "post");
           ("url", JStr "/users/:id"); ("swaggerDoc", JStr "doc2") ].

(** Two documented routes; building the second one throws. *)
Definition twoRoutesExample : RED :=
  {| settings := Js.obj [];
     nodes := [ listUsersRoute; brokenRoute ];
     getNode := λ v,
       if Js.is_str "doc1" v then listUsersDoc
       else if Js.is_str "doc2" v then brokenDoc else JNull |}.

(** A documentation record with an empty summary and an empty description. *)
Definition emptyTextsDoc : gmap string JsVal :=
  list_to_map
    [ ("summary", JStr "");
      ("responses", Js.obj [ ("404", Js.obj [ ("description", JStr "") ]) ]) ].

(** *** Tags *)

(** The number of occurrences of a character. *)
Fixpoint count_char (a : ascii) (s : string) : nat :=
  match s with
  | "" => 0
  | String c t => (if Str.is_char a c then 1 else 0) + count_char a t
  end.

Definition notSpace (c : ascii) : bool := negb (Str.isSpace c).

(** No white space at either end. *)
Definition trimmed (s : string) : Prop :=
  headb notSpace s = true ∧ headb notSpace (String.rev s) = true.

(** A text of ASCII characters. *)
Definition asciiText (s : string) : bool :=
  allb (λ c, (Ascii.N_of_ascii c <? 128)%N) s.

(** *** Parameter definitions *)

(** The members that every parameter definition has (lines 111-116). *)
Definition paramBase (m : gmap string JsVal) : gmap string JsVal :=
  list_to_map
    [ ("name", Js.get_obj m "name"); ("in", Js.get_obj m "in");
      ("required", Js.or (Js.get_obj m "required") (JBool false));
      ("description", Js.or (Js.get_obj m "description") (JStr "")) ].

(** The parameter has a [schema] or a [type]. *)
Definition schemaEmitted (m : gmap string JsVal) : bool :=
  Js.truthy (Js.get_obj m "schema") || Js.truthy (Js.get_obj m "type").

(** The parameter has no [schema], is an array and has a collection format. *)
Definition styleEmitted (m : gmap string JsVal) : bool :=
  negb (Js.truthy (Js.get_obj m "schema"))
  && Js.is_str "array" (Js.get_obj m "type")
  && Js.truthy (Js.get_obj m "collectionFormat").

(** *** Operations that can be built *)

(** [requestBody && Object.keys(requestBody.content || {}).length > 0]. *)
Definition bodyKept (requestBody : JsVal) : bool :=
  Js.truthy requestBody &&
  match Js.get requestBody "content" with
  | Some content => negb (Js.no_keys (Js.or content (JObj ∅)))
  | None => false
  end.

(** The record has a summary, or the route a name, or the method is a
    string that can be upper-cased. *)
Definition summaryAvailable (name method : JsVal) (doc : gmap string JsVal)
    : Prop :=
  Js.get_obj doc "summary" ≠ JUndefined ∨ Js.truthy name = true ∨
  ∃ mth, method = JStr mth.

(** [tags] is falsy, or a string. *)
Definition tagsSplittable (doc : gmap string JsVal) : Prop :=
  Js.truthy (Js.dflt (JStr "") (Js.get_obj doc "tags")) = false ∨
  ∃ s, Js.get_obj doc "tags" = JStr s.

(** The parameters of the record and of the settings can be spread, and none
    of them is [undefined] or [null]. *)
Definition parametersUsable (ap : JsVal) (doc : gmap string JsVal) : Prop :=
  ∃ ps qs, Js.iterate (Js.dflt (JArr []) (Js.get_obj doc "parameters")) = Ok ps ∧
           Js.iterate ap = Ok qs ∧
           Forall (λ p, nullish p = false) (ps ++ qs)%list.

(** Where the loop over the responses runs, no response is [undefined] or
    [null]. *)
Definition responsesUsable (doc : gmap string JsVal) : Prop :=
  let responses := Js.dflt (JObj ∅) (Js.get_obj doc "responses") in
  Js.truthy responses && Js.typeof_object responses = true →
  ∀ k v, Js.own_props responses !! k = Some v → nullish v = false.

Definition buildable (ap name method : JsVal) (doc : gmap string JsVal) : Prop :=
  summaryAvailable name method doc ∧ tagsSplittable doc ∧
  parametersUsable ap doc ∧ responsesUsable doc.

(** A node that [eachNode] can visit: it is an object, and if it is a
    documented route, its [url] and [method] are strings and its operation
    can be built. *)
Definition routeUsable (getNode : JsVal → JsVal) (ap node : JsVal) : Prop :=
  nullish node = false ∧
  (documented getNode node = true →
   ∃ u mth name swaggerDoc,
     Js.get node "url" = Ok (JStr u) ∧ Js.get node "method" = Ok (JStr mth) ∧
     Js.get node "name" = Ok name ∧ Js.get node "swaggerDoc" = Ok swaggerDoc ∧
     is_Some (buildOperation ap name (JStr mth) (endPoint u) (getNode swaggerDoc))).

(** The key under which the operation of a route is stored: its converted
    path and its lower-cased method. *)
Definition routeKey (node : JsVal) : option (string * string) :=
  match Js.get node "url", Js.get node "method" with
  | Some (JStr u), Some (JStr m) => Some (endPoint u, Str.toLowerCase m)
  | _, _ => None
  end.

(** The operation stored under a path and a method. *)
Definition operationAt (paths : gmap string (gmap string JsVal))
    (key : string * string) : option JsVal :=
  paths !! key.1 ≫= λ item, item !! key.2.

(** A server entry whose [url] is a string. *)
Definition hasUrl (server : JsVal) : Prop :=
  ∃ m u, server = JObj m ∧ m !! "url" = Some (JStr u).

(** *** The cleanup pass *)

(** What the pass leaves of [components]. *)
Definition cleanedComponents (o : option JsVal) : option JsVal :=
  match o with
  | Some (JObj c) =>
      let c' := foldl pruneCategory c categories in
      if bool_decide (c' = ∅) then None else Some (JObj c')
  | Some v => if prunable v then None else Some v
  | None => None
  end.

(** What the pass leaves of [tags]. *)
Definition cleanedTags (o : option JsVal) : option JsVal :=
  match o with
  | Some (JArr []) => None
  | tags => tags
  end.

(** The [components] member of the template of the settings, if the
    settings can be read and the template has one. *)
Definition templateComponents (red : RED) : option JsVal :=
  match readSettings (settings red) with
  | Some (_, template, _) => Js.own_props template !! "components"
  | None => None
  end.

(** *** Documentation nodes *)

(** The members that the constructor assigns. *)
Definition docMembers : list string :=
  [ "summary"; "description"; "tags"; "parameters"; "responses";
    "requestBody"; "deprecated" ].

(** The value that the constructor gives to a member. *)
Definition docMember (cfg : gmap string JsVal) (k : string) : JsVal :=
  let v := Js.get_obj cfg k in
  if bool_decide (k = "parameters") then Js.or v (JArr [])
  else if bool_decide (k = "responses") then Js.or v (JObj ∅)
  else if bool_decide (k = "requestBody") then Js.or v JNull
  else if bool_decide (k = "deprecated") then Js.or v (JBool false)
  else v.

(** The object with just the members that the constructor assigns. *)
Definition constructedDoc (cfg : gmap string JsVal) : gmap string JsVal :=
  list_to_map ((λ k, (k, docMember cfg k)) <$> docMembers).

(** *** Further examples *)

(** A path parameter with a schema of its own and, beside it, a type. *)
Definition schemaParam : gmap string JsVal :=
  list_to_map
    [ ("name", JStr "id"); ("in", JStr "path"); ("required", JBool true);
      ("schema", Js.obj [ ("type", JStr "integer") ]); ("type", JStr "array");
      ("collectionFormat", JStr "csv") ].

(** The same parameter without the type. *)
Definition schemaOnlyParam : gmap string JsVal :=
  list_to_map
    [ ("name", JStr "id"); ("in", JStr "path"); ("required", JBool true);
      ("schema", Js.obj [ ("type", JStr "integer") ]) ].

Definition pageParam : JsVal :=
  Js.obj [ ("name", JStr "page"); ("in", JStr "query"); ("type", JStr "integer") ].

Definition apiKeyParam : JsVal :=
  Js.obj [ ("name", JStr "X-Api-Key"); ("in", JStr "header");
           ("required", JBool true); ("type", JStr "string") ].

(** A record with one parameter and a request body. *)
Definition createUserDoc : gmap string JsVal :=
  list_to_map
    [ ("summary", JStr "Create user"); ("tags", JStr "users, admin");
      ("parameters", JArr [ pageParam ]);
      ("requestBody",
       Js.obj [ ("content",
                 Js.obj [ ("application/json",
                           Js.obj [ ("schema", Js.obj [ ("type", JStr "object") ]) ]) ]) ]) ].

(** A template with [components] of its own: an empty category and a
    security scheme. *)
Definition securedComponents : gmap string JsVal :=
  list_to_map
    [ ("schemas", JObj ∅);
      ("securitySchemes",
       Js.obj [ ("apiKey", Js.obj [ ("type", JStr "apiKey") ]) ]) ].

Definition securedTemplate : JsVal :=
  Js.obj [ ("components", JObj securedComponents) ].

(** The same template once a request has pruned its [components]. *)
Definition securedTemplatePruned : JsVal :=
  JObj (<["components" := JObj (foldl pruneCategory securedComponents categories)]>
          (Js.own_props securedTemplate)).

Definition templateExample (template : JsVal) : RED :=
  {| settings := Js.obj [ ("openapi", Js.obj [ ("template", template) ]) ];
     nodes := [];
     getNode := λ _, JNull |}.

(** One documented route. *)
Definition oneRouteExample : RED :=
  {| settings := Js.obj [];
     nodes := [ listUsersRoute ];
     getNode := λ v, if Js.is_str "doc1" v then listUsersDoc else JNull |}.

(** * Properties *)

#[local] Arguments String.append : simpl nomatch.
#[local] Arguments match_regexColons : simpl never.
#[local] Arguments match_brace : simpl never.

Lemma bind_Some_inv {A B} (x : option A) (f : A → option B) b :
  x ≫= f = Some b → ∃ a, x = Some a ∧ f a = Some b.
Proof. destruct x as [a|]; [|done]. intros H. by exists a. Qed.

(** [inv_bind H] splits a successful sequence of steps into its steps. *)
Ltac inv_bind H :=
  repeat (let a := fresh "v" in let E := fresh "E" in
          apply bind_Some_inv in H as (a & E & H)).

(** [bind_red] runs the steps whose outcome is known. *)
Ltac bind_red := repeat (change (Some ?x ≫= ?f) with (f x); cbv beta).

(** ** Strings *)

Section strings.
Implicit Types s t p : string.
Implicit Types c : ascii.

Lemma str_app_assoc s t p : (s +:+ t) +:+ p = s +:+ t +:+ p.
Proof. induction s as [|c s IH]; simpl; [done | by rewrite IH]. Qed.

Lemma str_length_app s t :
  String.length (s +:+ t) = String.length s + String.length t.
Proof. induction s as [|c s IH]; simpl; [done | by rewrite IH]. Qed.

Lemma is_char_true a c : Str.is_char a c = true ↔ a = c.
Proof. apply Ascii.eqb_eq. Qed.

Lemma startsWith_char a s :
  Str.startsWith (String a "") s = true ↔ ∃ t, s = String a t.
Proof.
  destruct s as [|c t]; simpl.
  - split; [done | intros [? ?]; done].
  - rewrite andb_true_r, is_char_true. split; [intros ->; eauto|].
    by intros [? [= -> _]].
Qed.

Lemma endsWith_char a s :
  Str.endsWith (String a "") s = true ↔ ∃ t, s = t +:+ String a "".
Proof.
  induction s as [|c t IH].
  - split; [done|]. intros [[|? ?] ?]; done.
  - change (Str.endsWith (String a "") (String c t))
      with (String.eqb (String c t) (String a "") || Str.endsWith (String a "") t).
    rewrite orb_true_iff, IH, String.eqb_eq. split.
    + intros [H | [u ->]].
      * exists "". done.
      * exists (String c u). done.
    + intros [[|c' u] H]; simpl in H.
      * left. done.
      * right. injection H as -> ->. eauto.
Qed.

Lemma endsWith_app p s : Str.endsWith p (s +:+ p) = true.
Proof.
  induction s as [|c s IH].
  - destruct p; simpl; rewrite ?Ascii.eqb_refl, ?String.eqb_refl; done.
  - change (String.eqb (String c s +:+ p) p || Str.endsWith p (s +:+ p) = true).
    rewrite IH. apply orb_true_r.
Qed.

Lemma slice_snoc s a : Str.slice_0_m1 (s +:+ String a "") = s.
Proof.
  unfold Str.slice_0_m1. rewrite str_length_app. simpl.
  replace (String.length s + 1 - 1) with (String.length s) by lia.
  induction s as [|c t IH]; simpl; [done|]. by rewrite IH.
Qed.

End strings.

(** ** Normalisation of a path *)

Section normalize.
Implicit Types s t p : string.

Lemma ensureLeadingSlash_shape p : ∃ t, ensureLeadingSlash p = String "/" t.
Proof.
  unfold ensureLeadingSlash.
  destruct (Str.startsWith "/" p) eqn:H; [|by eauto].
  by apply startsWith_char in H.
Qed.

Lemma ensureLeadingSlash_id t : ensureLeadingSlash (String "/" t) = String "/" t.
Proof. done. Qed.

(** [stripTerminalSlash] either leaves its argument, or removes the final
    slash of a text of two characters or more. *)
Lemma stripTerminalSlash_cases s :
  (stripTerminalSlash s = s ∧
     ((1 <? String.length s)%nat && Str.endsWith "/" s = false)) ∨
  (∃ c u, s = String c u +:+ "/" ∧ stripTerminalSlash s = String c u).
Proof.
  unfold stripTerminalSlash.
  destruct ((1 <? String.length s)%nat && Str.endsWith "/" s) eqn:H; [|by left].
  right. apply andb_true_iff in H as [Hlen Hend].
  apply endsWith_char in Hend as [u ->].
  apply Nat.ltb_lt in Hlen. rewrite str_length_app in Hlen. simpl in Hlen.
  destruct u as [|c u]; [simpl in Hlen; lia|].
  exists c, u. by rewrite slice_snoc.
Qed.




End normalize.

(** ** Conversion of the path parameters *)

Section scan.
Implicit Types s t p q r w x : string.
Implicit Types c a b : ascii.
Implicit Types m : string → option string.

Local Abbreviation R := (replace_go match_regexColons convToSwaggerPath 0).
Local Abbreviation MB := (matches_go match_brace 0).
Local Abbreviation MC := (matches_go match_regexColons 0).

Lemma replace_go_skip m f k s :
  replace_go m f k s = replace_go m f 0 (Str.drop k s).
Proof.
  revert k. induction s as [|c t IH]; intros [|k]; try done. simpl. apply IH.
Qed.

Lemma matches_go_skip m k s :
  matches_go m k s = matches_go m 0 (Str.drop k s).
Proof.
  revert k. induction s as [|c t IH]; intros [|k]; try done. simpl. apply IH.
Qed.

Lemma replace_go_match m f c t x :
  m (String c t) = Some x →
  replace_go m f 0 (String c t) =
  f x +:+ replace_go m f 0 (Str.drop (String.length x - 1) t).
Proof. intros H. rewrite <-replace_go_skip. simpl. by rewrite H. Qed.

Lemma replace_go_nomatch m f c t :
  m (String c t) = None →
  replace_go m f 0 (String c t) = String c (replace_go m f 0 t).
Proof. intros H. simpl. by rewrite H. Qed.

Lemma matches_go_match m c t x :
  m (String c t) = Some x →
  matches_go m 0 (String c t) =
  x :: matches_go m 0 (Str.drop (String.length x - 1) t).
Proof. intros H. rewrite <-matches_go_skip. simpl. by rewrite H. Qed.

Lemma matches_go_nomatch m c t :
  m (String c t) = None → matches_go m 0 (String c t) = matches_go m 0 t.
Proof. intros H. simpl. by rewrite H. Qed.

Lemma matches_nil_cons m c t :
  matches_go m 0 (String c t) = [] →
  m (String c t) = None ∧ matches_go m 0 t = [].
Proof.
  destruct (m (String c t)) as [x|] eqn:Hm.
  - by rewrite (matches_go_match _ _ _ _ Hm).
  - by rewrite (matches_go_nomatch _ _ _ Hm).
Qed.

Lemma matches_nil_drop m k s :
  matches_go m 0 s = [] → matches_go m 0 (Str.drop k s) = [].
Proof.
  revert s. induction k as [|k IH]; intros [|c t]; try done.
  intros H. apply matches_nil_cons in H as [_ H]. by apply IH.
Qed.

Lemma str_drop_app w q : Str.drop (String.length w) (w +:+ q) = q.
Proof. induction w as [|c w IH]; simpl; [by destruct q|done]. Qed.

Lemma str_drop_length k s : (String.length (Str.drop k s) ≤ String.length s)%nat.
Proof.
  revert s. induction k as [|k IH]; intros [|c t]; simpl; try lia.
  specialize (IH t). lia.
Qed.

Lemma str_drop_app_le k r q :
  (k ≤ String.length r)%nat → Str.drop k (r +:+ q) = Str.drop k r +:+ q.
Proof.
  revert r. induction k as [|k IH]; intros r Hk; [done|].
  destruct r as [|c r]; simpl in Hk; [lia|].
  change (String c r +:+ q) with (String c (r +:+ q)). simpl. apply IH. lia.
Qed.

Lemma allb_app P p q : allb P (p +:+ q) = allb P p && allb P q.
Proof.
  induction p as [|c p IH]; [done|]. simpl. by rewrite IH, andb_assoc.
Qed.

(** *** What [\w*] takes *)

Lemma takeWord_word r : allb Str.isWord (Str.takeWord r) = true.
Proof.
  induction r as [|c r IH]; simpl; [done|].
  destruct (Str.isWord c) eqn:Hc; simpl; [by rewrite Hc|done].
Qed.

Lemma takeWord_split r :
  r = Str.takeWord r +:+ Str.drop (String.length (Str.takeWord r)) r.
Proof.
  induction r as [|c r IH]; simpl; [done|].
  destruct (Str.isWord c); simpl; [by rewrite <-IH|done].
Qed.

Lemma takeWord_rest r :
  headb (λ c, negb (Str.isWord c))
    (Str.drop (String.length (Str.takeWord r)) r) = true.
Proof.
  induction r as [|c r IH]; simpl; [done|].
  destruct (Str.isWord c) eqn:Hc; simpl; [done|by rewrite Hc].
Qed.

Lemma takeWord_app w q :
  allb Str.isWord w = true → headb (λ c, negb (Str.isWord c)) q = true →
  Str.takeWord (w +:+ q) = w.
Proof.
  intros Hw Hq. induction w as [|c w IH]; simpl in *.
  - destruct q as [|c q]; simpl in *; [done|].
    by destruct (Str.isWord c).
  - apply andb_true_iff in Hw as [Hc Hw]. rewrite Hc. by rewrite (IH Hw).
Qed.

Lemma takeWord_snoc_slash r : Str.takeWord (r +:+ "/") = Str.takeWord r.
Proof.
  induction r as [|c r IH]; [done|].
  change (String c r +:+ "/") with (String c (r +:+ "/")). simpl.
  by rewrite IH.
Qed.

Lemma takeWord_length r :
  (String.length (Str.takeWord r) ≤ String.length r)%nat.
Proof.
  induction r as [|c r IH]; simpl; [done|].
  destruct (Str.isWord c); simpl; lia.
Qed.

Lemma word_not_slash c : Str.isWord c = true → Str.is_char "/" c = false.
Proof.
  intros H. destruct (Str.is_char "/" c) eqn:E; [|done].
  apply is_char_true in E as <-. done.
Qed.

Lemma word_allb_not_slash w :
  allb Str.isWord w = true → allb (λ c, negb (Str.is_char "/" c)) w = true.
Proof.
  induction w as [|c w IH]; [done|]. simpl.
  rewrite !andb_true_iff. intros [Hc Hw]. split; [|by apply IH].
  apply negb_true_iff. by apply word_not_slash.
Qed.

(** *** The two regular expressions at one position *)

Lemma match_regexColons_Some s x :
  match_regexColons s = Some x →
  ∃ r, s = "/:" +:+ r ∧ x = "/:" +:+ Str.takeWord r.
Proof.
  destruct s as [|a [|b r]]; try done. unfold match_regexColons.
  destruct (Str.is_char "/" a) eqn:Ha; [|done].
  destruct (Str.is_char ":" b) eqn:Hb; [|done].
  apply is_char_true in Ha as <-. apply is_char_true in Hb as <-.
  intros [= <-]. eauto.
Qed.

Lemma match_regexColons_eq r :
  match_regexColons ("/:" +:+ r) = Some ("/:" +:+ Str.takeWord r).
Proof. done. Qed.

Lemma match_regexColons_head c t :
  Str.is_char "/" c = false → match_regexColons (String c t) = None.
Proof.
  intros H. destruct t; [done|]. unfold match_regexColons. by rewrite H.
Qed.

Lemma match_regexColons_snoc c t :
  match_regexColons (String c t +:+ "/") = match_regexColons (String c t).
Proof.
  destruct t as [|b r].
  - unfold match_regexColons. simpl. by rewrite andb_false_r.
  - change (String c (String b r) +:+ "/") with (String c (String b (r +:+ "/"))).
    unfold match_regexColons. by rewrite takeWord_snoc_slash.
Qed.

Lemma match_brace_eq w q :
  allb Str.isWord w = true →
  match_brace ("/{" +:+ w +:+ "}" +:+ q) = Some ("/{" +:+ w +:+ "}").
Proof.
  intros Hw. change ("/{" +:+ w +:+ "}" +:+ q)
    with (String "/" (String "{" (w +:+ String "}" q))).
  unfold match_brace.
  rewrite (takeWord_app w (String "}" q) Hw) by done.
  rewrite str_drop_app. reflexivity.
Qed.

Lemma match_brace_head c t :
  Str.is_char "/" c = false → match_brace (String c t) = None.
Proof. intros H. destruct t; [done|]. unfold match_brace. by rewrite H. Qed.

Lemma startsWith1_snoc a b q :
  q ≠ "" ∨ a ≠ b →
  Str.startsWith (String a "") (q +:+ String b "")
  = Str.startsWith (String a "") q.
Proof.
  destruct q as [|c q]; [|done].
  intros [?|Hne]; [done|]. simpl. rewrite andb_true_r.
  destruct (Str.is_char a b) eqn:E; [|done]. by apply is_char_true in E.
Qed.

Lemma match_brace_snoc c t :
  match_brace (String c t +:+ "/") = match_brace (String c t).
Proof.
  destruct t as [|b r].
  - unfold match_brace. simpl. by rewrite andb_false_r.
  - change (String c (String b r) +:+ "/") with (String c (String b (r +:+ "/"))).
    unfold match_brace. rewrite takeWord_snoc_slash.
    rewrite str_drop_app_le by apply takeWord_length.
    by rewrite startsWith1_snoc by (by right).
Qed.

(** *** The replacement, one step at a time *)

Lemma convToSwaggerPath_eq w :
  convToSwaggerPath ("/:" +:+ w) = "/{" +:+ w +:+ "}".
Proof. done. Qed.

Lemma R_match r :
  R ("/:" +:+ r) =
  "/{" +:+ Str.takeWord r +:+ "}"
    +:+ R (Str.drop (String.length (Str.takeWord r)) r).
Proof.
  change ("/:" +:+ r) with (String "/" (":" +:+ r)).
  rewrite (replace_go_match _ _ _ _ _ (match_regexColons_eq r)).
  rewrite convToSwaggerPath_eq.
  replace (Str.drop _ (":" +:+ r))
    with (Str.drop (String.length (Str.takeWord r)) r) by done.
  by rewrite !str_app_assoc.
Qed.

Lemma R_nomatch c t :
  match_regexColons (String c t) = None → R (String c t) = String c (R t).
Proof. apply replace_go_nomatch. Qed.

(** The replacement keeps the first character. *)
Lemma R_cons c t : ∃ u, R (String c t) = String c u.
Proof.
  destruct (match_regexColons (String c t)) as [x|] eqn:Hm.
  - apply match_regexColons_Some in Hm as (r & Hs & _).
    rewrite Hs, R_match. injection Hs as -> _. eauto.
  - rewrite R_nomatch by done. eauto.
Qed.

Lemma R_head P s : headb P (R s) = headb P s.
Proof.
  destruct s as [|c t]; [done|]. by destruct (R_cons c t) as [u ->].
Qed.

Lemma startsWith1_R a s :
  Str.startsWith (String a "") (R s) = Str.startsWith (String a "") s.
Proof.
  destruct s as [|c t]; [done|]. by destruct (R_cons c t) as [u ->].
Qed.

Lemma R_word w q : allb Str.isWord w = true → R (w +:+ q) = w +:+ R q.
Proof.
  intros Hw. induction w as [|c w IH]; [done|].
  simpl in Hw. apply andb_true_iff in Hw as [Hc Hw].
  change (String c w +:+ q) with (String c (w +:+ q)).
  rewrite R_nomatch by (by apply match_regexColons_head, word_not_slash).
  by rewrite (IH Hw).
Qed.

Lemma MC_match r :
  MC ("/:" +:+ r) =
  ("/:" +:+ Str.takeWord r) :: MC (Str.drop (String.length (Str.takeWord r)) r).
Proof.
  change ("/:" +:+ r) with (String "/" (String ":" r)).
  by rewrite (matches_go_match _ "/" (String ":" r) _ (match_regexColons_eq r)).
Qed.

Lemma MB_match w q :
  allb Str.isWord w = true →
  MB ("/{" +:+ w +:+ "}" +:+ q) = ("/{" +:+ w +:+ "}") :: MB q.
Proof.
  intros Hw.
  change ("/{" +:+ w +:+ "}" +:+ q) with (String "/" ("{" +:+ w +:+ "}" +:+ q)).
  erewrite matches_go_match; [|by apply match_brace_eq].
  f_equal. f_equal.
  replace (String.length ("/{" +:+ w +:+ "}") - 1)
    with (String.length ("{" +:+ w +:+ "}")) by (simpl; lia).
  replace ("{" +:+ w +:+ "}" +:+ q) with (("{" +:+ w +:+ "}") +:+ q)
    by (by rewrite !str_app_assoc).
  apply str_drop_app.
Qed.

(** Where the template has neither a colon parameter nor a brace parameter,
    the replacement of what follows makes no brace parameter. *)
Lemma match_brace_R c t :
  match_regexColons (String c t) = None →
  match_brace (String c t) = None →
  match_brace (String c (R t)) = None.
Proof.
  intros Hc Hb.
  destruct (Str.is_char "/" c) eqn:Ec; [|by apply match_brace_head].
  destruct t as [|b r]; [done|].
  destruct (R_cons b r) as [u Hu].
  destruct (Str.is_char "{" b) eqn:Eb;
    [|rewrite Hu; unfold match_brace; by rewrite Ec, Eb].
  clear u Hu.
  rewrite R_nomatch
    by (apply match_regexColons_head; apply is_char_true in Eb as <-; done).
  assert (HR : R r = Str.takeWord r
                     +:+ R (Str.drop (String.length (Str.takeWord r)) r)).
  { rewrite <-R_word by apply takeWord_word. by rewrite <-takeWord_split. }
  revert Hb. unfold match_brace. rewrite Ec, Eb, HR.
  set (w := Str.takeWord r). set (q := Str.drop (String.length w) r).
  assert (Hq : headb (λ c, negb (Str.isWord c)) (R q) = true).
  { rewrite R_head. apply takeWord_rest. }
  rewrite (takeWord_app w (R q)) by (done || apply takeWord_word).
  rewrite str_drop_app, startsWith1_R.
  by destruct (Str.startsWith "}" q).
Qed.

(** The brace parameters of the replaced text are the converted colon
    parameters, when the template has no brace parameter of its own. *)
Lemma MB_R_aux n s :
  (String.length s ≤ n)%nat → MB s = [] →
  MB (R s) = convToSwaggerPath <$> MC s.
Proof.
  revert s. induction n as [|n IH]; intros [|c t] Hlen Hs; try done.
  { simpl in Hlen. lia. }
  simpl in Hlen.
  destruct (match_regexColons (String c t)) as [x|] eqn:Hm.
  - apply match_regexColons_Some in Hm as (r & Hr & _).
    rewrite Hr, R_match, MC_match, MB_match by apply takeWord_word.
    rewrite fmap_cons, convToSwaggerPath_eq. f_equal.
    injection Hr as -> ->.
    apply IH.
    + pose proof (str_drop_length (String.length (Str.takeWord r)) r).
      simpl in Hlen. lia.
    + apply matches_nil_cons in Hs as [_ Hs].
      apply matches_nil_cons in Hs as [_ Hs].
      by apply matches_nil_drop.
  - apply matches_nil_cons in Hs as [Hb Hs].
    rewrite R_nomatch, (matches_go_nomatch _ _ _ Hm) by done.
    rewrite (matches_go_nomatch _ _ _ (match_brace_R _ _ Hm Hb)).
    apply IH; [lia|done].
Qed.

Lemma MB_R s : MB s = [] → MB (R s) = convToSwaggerPath <$> MC s.
Proof. by apply (MB_R_aux (String.length s)). Qed.

Lemma MC_skip p q :
  allb (λ c, negb (Str.is_char "/" c)) p = true → MC (p +:+ q) = MC q.
Proof.
  intros Hp. induction p as [|c p IH]; [done|].
  simpl in Hp. apply andb_true_iff in Hp as [Hc Hp].
  change (String c p +:+ q) with (String c (p +:+ q)).
  rewrite matches_go_nomatch; [by apply IH|].
  apply match_regexColons_head. by apply negb_true_iff in Hc.
Qed.

(** The replaced text has no colon parameter left. *)
Lemma MC_R_aux n s : (String.length s ≤ n)%nat → MC (R s) = [].
Proof.
  revert s. induction n as [|n IH]; intros [|c t] Hlen; try done.
  { simpl in Hlen. lia. }
  simpl in Hlen.
  destruct (match_regexColons (String c t)) as [x|] eqn:Hm.
  - apply match_regexColons_Some in Hm as (r & Hr & _).
    rewrite Hr, R_match. injection Hr as -> ->.
    change ("/{" +:+ ?u) with (String "/" ("{" +:+ u)).
    rewrite matches_go_nomatch by done.
    replace ("{" +:+ Str.takeWord r +:+ "}"
               +:+ R (Str.drop (String.length (Str.takeWord r)) r))
      with (("{" +:+ Str.takeWord r +:+ "}")
              +:+ R (Str.drop (String.length (Str.takeWord r)) r))
      by (by rewrite !str_app_assoc).
    rewrite MC_skip.
    + apply IH. pose proof (str_drop_length (String.length (Str.takeWord r)) r).
      simpl in Hlen. lia.
    + change ("{" +:+ ?u) with (String "{" u). simpl.
      rewrite allb_app, word_allb_not_slash by apply takeWord_word. done.
  - rewrite R_nomatch by done.
    rewrite matches_go_nomatch; [apply IH; lia|].
    destruct (Str.is_char "/" c) eqn:Ec; [|by apply match_regexColons_head].
    destruct t as [|b r]; [done|].
    destruct (R_cons b r) as [u ->].
    revert Hm. unfold match_regexColons. rewrite Ec.
    by destruct (Str.is_char ":" b).
Qed.

Lemma MC_R s : MC (R s) = [].
Proof. by apply (MC_R_aux (String.length s)). Qed.

(** *** The whole conversion *)

Lemma matches_go_snoc m k s :
  m "/" = None →
  (∀ c t, m (String c t +:+ "/") = m (String c t)) →
  matches_go m k (s +:+ "/") = matches_go m k s.
Proof.
  intros H1 H2. revert k.
  induction s as [|c t IH]; intros k.
  - destruct k; simpl; by rewrite ?H1.
  - change (String c t +:+ "/") with (String c (t +:+ "/")).
    destruct k as [|k]; simpl; [|apply IH].
    change (String c (t +:+ "/")) with (String c t +:+ "/").
    rewrite H2. destruct (m (String c t)); by rewrite IH.
Qed.

Lemma matches_strip m s :
  m "/" = None →
  (∀ c t, m (String c t +:+ "/") = m (String c t)) →
  matches_go m 0 (stripTerminalSlash s) = matches_go m 0 s.
Proof.
  intros H1 H2.
  destruct (stripTerminalSlash_cases s) as [[-> _]|(c & u & Hs & Hst)]; [done|].
  rewrite Hst, Hs. by rewrite matches_go_snoc.
Qed.

Lemma MC_elems k s :
  Forall (λ x, ∃ r, x = "/:" +:+ Str.takeWord r)
    (matches_go match_regexColons k s).
Proof.
  revert k. induction s as [|c t IH]; intros k; [by constructor|].
  destruct k as [|k]; simpl; [|apply IH].
  destruct (match_regexColons (String c t)) as [x|] eqn:Hm; [|apply IH].
  constructor; [|apply IH].
  apply match_regexColons_Some in Hm as (r & _ & ->). eauto.
Qed.

Lemma names_converted s :
  (λ x, Str.takeWord (Str.drop 2 x)) <$> (convToSwaggerPath <$> MC s)
  = Str.drop 2 <$> MC s.
Proof.
  rewrite <-list_fmap_compose. apply Forall_fmap_ext.
  eapply Forall_impl; [apply MC_elems|].
  intros x [r ->]. unfold compose. rewrite convToSwaggerPath_eq.
  change (Str.drop 2 ("/{" +:+ ?u)) with u.
  change (Str.drop 2 ("/:" +:+ ?u)) with u.
  apply takeWord_app; [apply takeWord_word|done].
Qed.

Lemma endPoint_eq url :
  Str.startsWith "/" url = true →
  endPoint url = stripTerminalSlash (R url).
Proof.
  intros H. unfold endPoint, replaceAll.
  rewrite <-(startsWith1_R "/") in H. apply startsWith_char in H as [t ->].
  by rewrite ensureLeadingSlash_id.
Qed.

Lemma braceParams_nil s : braceParams s = [] → MB s = [].
Proof. unfold braceParams, matchAll. by intros ?%fmap_nil_inv. Qed.

(** A converted path starts with a slash. *)
Lemma endPoint_shape url : ∃ t, endPoint url = String "/" t.
Proof.
  unfold endPoint.
  destruct (ensureLeadingSlash_shape
              (replaceAll match_regexColons convToSwaggerPath url)) as [t ->].
  destruct (stripTerminalSlash_cases (String "/" t))
    as [[-> _]|(c & u & Hs & ->)]; [eauto|].
  injection Hs as <- _. eauto.
Qed.

(** So it is an ordinary key of [resp.paths]: not [__proto__] and not the
    name of an inherited member. *)
Lemma endPoint_own_key url :
  endPoint url ≠ "__proto__" ∧ Js.inherited (endPoint url) = JUndefined.
Proof.
  destruct (endPoint_shape url) as [t ->]. split; [done|].
  unfold Js.inherited. rewrite bool_decide_eq_false_2; [done|].
  unfold Js.Object_prototype. intros H.
  repeat (apply elem_of_cons in H as [H|H]; [discriminate H|]).
  by apply elem_of_nil in H.
Qed.




End scan.

(** ** Operations *)

Section operation.
Implicit Types m r out op rd d : gmap string JsVal.
Implicit Types v : JsVal.

Lemma get_is_Some v k : nullish v = false → is_Some (Js.get v k).
Proof. by destruct v. Qed.

Lemma get_nullish v k : nullish v = true → Js.get v k = Throw.
Proof. by destruct v. Qed.

Lemma get_JObj m k : Js.get (JObj m) k = Ok (Js.get_obj m k).
Proof. done. Qed.

Lemma get_obj_Some m k v : m !! k = Some v → Js.get_obj m k = v.
Proof. unfold Js.get_obj. by intros ->. Qed.

Lemma get_obj_ext m m' k : m !! k = m' !! k → Js.get_obj m k = Js.get_obj m' k.
Proof. unfold Js.get_obj. by intros ->. Qed.

Lemma set_lookup m i x k :
  Js.set m i x !! k =
  if String.eqb i "__proto__" then m !! k
  else if decide (i = k) then Some x else m !! k.
Proof.
  unfold Js.set. destruct (String.eqb i "__proto__"); [done|].
  apply lookup_insert.
Qed.

Lemma addRequestBody_lookup requestBody operation o k :
  addRequestBody requestBody operation = Ok o → k ≠ "requestBody" →
  o !! k = operation !! k.
Proof.
  unfold addRequestBody. intros H Hk.
  destruct (Js.truthy requestBody); [|by simplify_eq].
  inv_bind H. injection H as <-.
  destruct (negb _); [by rewrite lookup_insert_ne|done].
Qed.

(** The summary and the responses of a built operation are what
    [operationSummary] and [processResponses] returned. *)
Lemma buildOperation_inv ap name method ep doc op :
  buildOperation ap name method ep doc = Ok op →
  ∃ summary responses out,
    operationSummary name method ep doc = Ok summary ∧
    Js.dflt (JObj ∅) <$> Js.get doc "responses" = Ok responses ∧
    processResponses responses = Ok out ∧
    op !! "summary" = Some summary ∧
    op !! "responses" = Some (JObj (ensureResponse out)).
Proof.
  unfold buildOperation. intros H. inv_bind H. injection H as <-.
  eexists _, _, _. repeat split; try eassumption.
  - rewrite lookup_insert_ne by done.
    erewrite addRequestBody_lookup by done. reflexivity.
  - apply lookup_insert_eq.
Qed.

(** *** Responses *)

Lemma responseEntry_is_Some v : nullish v = false → is_Some (responseEntry v).
Proof.
  intros Hv. unfold responseEntry.
  destruct (get_is_Some v "description" Hv) as [d ->].
  destruct (get_is_Some v "schema" Hv) as [s ->]. simpl.
  by destruct (Js.truthy s).
Qed.

Lemma responseEntry_description rd :
  ∃ e, responseEntry (JObj rd) = Ok (JObj e) ∧
       e !! "description" =
       Some (Js.or (Js.get_obj rd "description") (JStr "No description")).
Proof.
  unfold responseEntry. rewrite !get_JObj. bind_red.
  destruct (Js.truthy _); eexists; (split; [done|]).
  - rewrite lookup_insert_ne by done. apply lookup_singleton_eq.
  - apply lookup_singleton_eq.
Qed.

(** What the loop of lines 149-163 leaves in [operation.responses]: the
    entry of every status, but for a status named [__proto__], which the
    assignment of line 151 does not store. *)
Lemma addResponse_fold_lookup r out k :
  map_fold addResponse (Ok ∅) r = Ok out →
  out !! k =
  if String.eqb k "__proto__" then None else r !! k ≫= responseEntry.
Proof.
  revert out k.
  apply (map_fold_weak_ind (λ acc r, ∀ out k, acc = Ok out →
    out !! k = if String.eqb k "__proto__" then None
               else r !! k ≫= responseEntry)); clear r.
  - intros out k [= <-]. rewrite !lookup_empty. by destruct (String.eqb _ _).
  - intros i x r acc Hi IH out k H. unfold addResponse in H.
    inv_bind H. injection H as <-. subst acc.
    rewrite set_lookup, (IH _ k eq_refl).
    destruct (String.eqb i "__proto__") eqn:Ei.
    + apply String.eqb_eq in Ei as ->.
      destruct (String.eqb k "__proto__") eqn:Ek; [done|].
      apply String.eqb_neq in Ek. by rewrite lookup_insert_ne.
    + destruct (decide (i = k)) as [<-|Hne].
      * by rewrite Ei, lookup_insert_eq.
      * by rewrite lookup_insert_ne.
Qed.

(** The loop completes when no response is [undefined] or [null]. *)
Lemma addResponse_fold_is_Some r :
  (∀ k v, r !! k = Some v → nullish v = false) →
  is_Some (map_fold addResponse (Ok ∅) r).
Proof.
  apply (map_fold_weak_ind (λ acc r,
    (∀ k v, r !! k = Some v → nullish v = false) → is_Some acc)); clear r.
  - by eexists.
  - intros i x r acc Hi IH H. destruct IH as [out ->].
    { intros k v Hk. apply (H k). rewrite lookup_insert_ne; [done|]. congruence. }
    destruct (responseEntry_is_Some x) as [e He].
    { apply (H i). apply lookup_insert_eq. }
    unfold addResponse. simpl. rewrite He. by eexists.
Qed.

Lemma addResponse_fold_entries r out k v :
  map_fold addResponse (Ok ∅) r = Ok out → r !! k = Some v →
  is_Some (responseEntry v).
Proof.
  revert out.
  apply (map_fold_weak_ind (λ acc r, ∀ out, acc = Ok out → r !! k = Some v →
    is_Some (responseEntry v))); clear r.
  - intros out _. by rewrite lookup_empty.
  - intros i x r acc Hi IH out H. unfold addResponse in H.
    inv_bind H. subst acc.
    destruct (decide (i = k)) as [->|Hne].
    + rewrite lookup_insert_eq. intros [= <-]. by eexists.
    + rewrite lookup_insert_ne by done. by eapply IH.
Qed.

Lemma ensureResponse_empty : ensureResponse ∅ = successfulResponse.
Proof. reflexivity. Qed.

Lemma ensureResponse_nonempty out k :
  is_Some (out !! k) → ensureResponse out = out.
Proof.
  intros [x Hx]. unfold ensureResponse. rewrite bool_decide_eq_false_2; [done|].
  intros ->. by rewrite lookup_empty in Hx.
Qed.

Lemma processResponses_obj r :
  processResponses (JObj r) = map_fold addResponse (Ok ∅) r.
Proof. done. Qed.

(** The responses of an operation whose record has a response under an
    ordinary status: the entries that the loop built, nothing added. *)
Lemma emitted_responses ap name method ep m op r k :
  buildOperation ap name method ep (JObj m) = Ok op →
  Js.get_obj m "responses" = JObj r →
  is_Some (r !! k) → k ≠ "__proto__" →
  ∃ out, op !! "responses" = Some (JObj out) ∧
    ∀ status, out !! status =
      if String.eqb status "__proto__" then None
      else r !! status ≫= responseEntry.
Proof.
  intros H E [v Hk] Hne. apply buildOperation_inv in H
    as (summary & responses & out & _ & Hr & Hout & _ & Hop).
  rewrite get_JObj in Hr. injection Hr as <-. rewrite E in Hout.
  change (Js.dflt (JObj ∅) (JObj r)) with (JObj r) in Hout.
  rewrite processResponses_obj in Hout.
  exists out. split; [|intros status; by apply addResponse_fold_lookup].
  rewrite Hop. do 2 f_equal. apply (ensureResponse_nonempty _ k).
  rewrite (addResponse_fold_lookup _ _ k Hout).
  apply String.eqb_neq in Hne. rewrite Hne, Hk.
  by eapply addResponse_fold_entries.
Qed.

(** *** Parameters *)

Lemma paramDef_is_Some v : nullish v = false → is_Some (paramDef v).
Proof.
  intros Hv. unfold paramDef.
  destruct (get_is_Some v "name" Hv) as [? ->].
  destruct (get_is_Some v "in" Hv) as [? ->].
  destruct (get_is_Some v "required" Hv) as [? ->].
  destruct (get_is_Some v "description" Hv) as [? ->].
  destruct (get_is_Some v "schema" Hv) as [? ->].
  destruct (get_is_Some v "type" Hv) as [? ->].
  destruct (get_is_Some v "format" Hv) as [? ->].
  destruct (get_is_Some v "items" Hv) as [? ->].
  destruct (get_is_Some v "collectionFormat" Hv) as [? ->]. bind_red.
  repeat (destruct (Js.truthy _) || destruct (_ && _)); by eexists.
Qed.

(** Style and explode of an array parameter that has a collection format
    and no schema. *)
Lemma paramDef_collectionFormat m cf :
  Js.truthy (Js.get_obj m "schema") = false →
  Js.get_obj m "type" = JStr "array" →
  Js.get_obj m "collectionFormat" = cf → Js.truthy cf = true →
  ∃ d, paramDef (JObj m) = Ok (JObj d) ∧
       d !! "style" = Some (getStyleFromCollectionFormat cf) ∧
       d !! "explode" = Some (JBool (Js.is_str "multi" cf)).
Proof.
  intros Hs Ht Hc Hcf. unfold paramDef. rewrite !get_JObj. bind_red.
  rewrite Hs, Ht, Hc, Hcf.
  change (Js.truthy (JStr "array")) with true.
  change (Js.is_str "array" (JStr "array")) with true. cbv iota.
  eexists. split; [reflexivity|]. split.
  - rewrite lookup_insert_ne by done. apply lookup_insert_eq.
  - apply lookup_insert_eq.
Qed.

(** The five formats of [formatMap]. *)
Lemma getStyle_known :
  getStyleFromCollectionFormat (JStr "csv") = JStr "simple" ∧
  getStyleFromCollectionFormat (JStr "ssv") = JStr "spaceDelimited" ∧
  getStyleFromCollectionFormat (JStr "tsv") = JStr "pipeDelimited" ∧
  getStyleFromCollectionFormat (JStr "pipes") = JStr "pipeDelimited" ∧
  getStyleFromCollectionFormat (JStr "multi") = JStr "form".
Proof. repeat split; reflexivity. Qed.

(** A format that is neither in [formatMap] nor the name of an inherited
    member gives [simple]. *)
Lemma getStyle_unknown s :
  formatMap !! s = None → s ∉ Js.Object_prototype →
  getStyleFromCollectionFormat (JStr s) = JStr "simple".
Proof.
  intros Hs Hp. unfold getStyleFromCollectionFormat, Js.get_obj, Js.inherited.
  change (Js.toString (JStr s)) with s. rewrite Hs.
  by rewrite bool_decide_eq_false_2.
Qed.

(** The name of an inherited member gives that member. *)
Lemma getStyle_inherited s :
  s ∈ Js.Object_prototype → getStyleFromCollectionFormat (JStr s) = JNative s.
Proof.
  intros Hp. unfold getStyleFromCollectionFormat, Js.get_obj, Js.inherited.
  change (Js.toString (JStr s)) with s.
  assert (formatMap !! s = None) as ->.
  { unfold Js.Object_prototype in Hp.
    repeat (apply elem_of_cons in Hp as [->|Hp]; [reflexivity|]).
    by apply elem_of_nil in Hp. }
  by rewrite bool_decide_eq_true_2.
Qed.

(** The array of strings with the format [multi]. *)
Lemma paramDef_array_multi m :
  Js.truthy (Js.get_obj m "schema") = false →
  Js.get_obj m "type" = JStr "array" →
  Js.truthy (Js.get_obj m "format") = false →
  Js.get_obj m "items" = Js.obj [ ("type", JStr "string") ] →
  Js.get_obj m "collectionFormat" = JStr "multi" →
  ∃ d, paramDef (JObj m) = Ok (JObj d) ∧
       d !! "schema" = Some (Js.obj [ ("type", JStr "array");
                                      ("items", Js.obj [ ("type", JStr "string") ]) ]) ∧
       d !! "style" = Some (JStr "form") ∧
       d !! "explode" = Some (JBool true).
Proof.
  intros Hs Ht Hf Hi Hc. unfold paramDef. rewrite !get_JObj. bind_red.
  rewrite Hs, Ht, Hf, Hi, Hc.
  eexists. split; [reflexivity|]. repeat split.
Qed.

(** C5, the code at the failing input: for an array parameter whose
    collection format is [constructor], an unknown format, [formatMap]
    yields the member inherited from [Object.prototype]; the style is that
    member and not [simple]. *)
Theorem collectionFormat_inherited_name :
  ∃ d, paramDef inheritedFormatParam = Ok (JObj d) ∧
       d !! "style" = Some (JNative "constructor") ∧
       d !! "style" ≠ Some (JStr "simple") ∧
       d !! "explode" = Some (JBool false).
Proof.
  eexists. split; [reflexivity|]. split; [reflexivity|]. split; [done|].
  reflexivity.
Qed.

(** *** Building succeeds on well-formed records *)

Lemma buildOperation_total ap qs name mth ep m :
  wellFormedRecord m →
  ap = JArr qs → Forall (λ p, nullish p = false) qs →
  is_Some (buildOperation ap name (JStr mth) ep (JObj m)).
Proof.
  intros (Htags & (ps & Hps & Hall) & (r & Hr & Hrs)) -> Hqs.
  unfold buildOperation, operationSummary. rewrite !get_JObj. bind_red.
  assert (Hsum : ∃ s, match Js.get_obj m "summary" with
                      | JUndefined => summaryDefault name (JStr mth) ep
                      | _ => Ok (Js.get_obj m "summary")
                      end = Ok s).
  { destruct (Js.get_obj m "summary"); try by eexists.
    unfold summaryDefault. destruct (Js.truthy name); by eexists. }
  destruct Hsum as [s ->]. bind_red.
  simpl fmap. bind_red. rewrite Hps, Hr.
  assert (Htg : ∃ t, csvStrToArray (Js.dflt (JStr "") (Js.get_obj m "tags")) = Ok t).
  { destruct Htags as [-> | [t ->]]; [by eexists|].
    unfold csvStrToArray. simpl. destruct (negb _); by eexists. }
  destruct Htg as [t ->]. bind_red. simpl Js.iterate. bind_red.
  assert (Hdefs : is_Some (mapM paramDef (ps ++ qs)%list)).
  { apply mapM_is_Some, Forall_app. split;
      (eapply Forall_impl; [done|]); intros p Hp; by apply paramDef_is_Some. }
  destruct Hdefs as [defs ->]. bind_red.
  assert (Hbody : ∀ o, is_Some (addRequestBody
            (Js.dflt JNull (Js.get_obj m "requestBody")) o)).
  { intros o. unfold addRequestBody.
    destruct (Js.truthy _) eqn:Et; [|by eexists].
    destruct (get_is_Some (Js.dflt JNull (Js.get_obj m "requestBody")) "content")
      as [c ->]; [|by eexists].
    by destruct (Js.dflt JNull (Js.get_obj m "requestBody")). }
  destruct (Hbody (list_to_map
    [("summary", s); ("description", Js.dflt (JStr "") (Js.get_obj m "description"));
     ("tags", t); ("deprecated", Js.dflt (JBool false) (Js.get_obj m "deprecated"));
     ("parameters", JArr defs); ("responses", JObj ∅)])) as [o ->]. bind_red.
  rewrite processResponses_obj.
  destruct (addResponse_fold_is_Some r Hrs) as [out ->]. by eexists.
Qed.

(** *** The claims about one operation *)

(** C3, as stated, fails: the name that the code falls back to is the one
    of the route node, not the one of the documentation record.  Here the
    record is named [Doc], the route has no name, and the summary is
    [GET /x]. *)
Lemma summary_claim_counterexample :
  ¬ summary_claim JUndefined "get" "/x" {[ "name" := JStr "Doc" ]}.
Proof.
  intros H. specialize (H (JArr []) _ eq_refl). vm_compute in H. done.
Qed.

(** C3, amended: the summary of the operation is the summary of the
    documentation record if that is defined; else the name of the route
    node if that is truthy; else the upper-cased method, a space and the
    converted path. *)
Theorem operation_summary ap name method ep m op :
  buildOperation ap name method ep (JObj m) = Ok op →
  match Js.get_obj m "summary" with
  | JUndefined =>
      if Js.truthy name then op !! "summary" = Some name
      else ∃ mth, method = JStr mth ∧
             op !! "summary" = Some (JStr (Str.toUpperCase mth +:+ " " +:+ ep))
  | summary => op !! "summary" = Some summary
  end.
Proof.
  intros H. apply buildOperation_inv in H
    as (summary & _ & _ & Hs & _ & _ & -> & _).
  unfold operationSummary in Hs. rewrite get_JObj in Hs. bind_red.
  destruct (Js.get_obj m "summary"); try by injection Hs as <-.
  unfold summaryDefault in Hs.
  destruct (Js.truthy name); [by injection Hs as <-|].
  destruct method; try done. injection Hs as <-. eauto.
Qed.

Lemma operation_summary_witness :
  ∃ op,
    buildOperation (JArr []) (JStr "") (JStr "get") "/users/{id}" (JObj ∅) = Ok op
    ∧ op !! "summary" = Some (JStr "GET /users/{id}").
Proof.
  destruct (buildOperation (JArr []) (JStr "") (JStr "get") "/users/{id}" (JObj ∅))
    as [op|] eqn:E; [|by vm_compute in E].
  exists op. split; [done|].
  destruct (operation_summary _ _ _ _ _ _ E) as (mth & [= <-] & ->). done.
Defined.



(** C9: a response whose description is the empty string gets the
    description [No description], whereas a summary that is the empty string
    is kept. *)
Theorem empty_description_vs_summary ap name method ep m op :
  buildOperation ap name method ep (JObj m) = Ok op →
  (∀ r status rd,
     Js.get_obj m "responses" = JObj r → status ≠ "__proto__" →
     r !! status = Some (JObj rd) → rd !! "description" = Some (JStr "") →
     ∃ out e, op !! "responses" = Some (JObj out) ∧
              out !! status = Some (JObj e) ∧
              e !! "description" = Some (JStr "No description")) ∧
  (m !! "summary" = Some (JStr "") → op !! "summary" = Some (JStr "")).
Proof.
  intros H. split.
  - intros r status rd Hr Hne Hst Hd.
    destruct (emitted_responses _ _ _ _ _ _ r status H Hr)
      as (out & Hop & Hout); [by eexists|done|].
    specialize (Hout status). apply String.eqb_neq in Hne.
    rewrite Hne, Hst in Hout.
    destruct (responseEntry_description rd) as (e & He & Hdesc).
    change (Some (JObj rd) ≫= responseEntry) with (responseEntry (JObj rd)) in Hout.
    rewrite He in Hout. rewrite (get_obj_Some _ _ _ Hd) in Hdesc.
    by exists out, e.
  - intros Hs. apply buildOperation_inv in H
      as (summary & _ & _ & Hsum & _ & _ & -> & _).
    unfold operationSummary in Hsum. rewrite get_JObj in Hsum. bind_red.
    rewrite (get_obj_Some _ _ _ Hs) in Hsum. by injection Hsum as <-.
Qed.

Lemma empty_description_vs_summary_witness :
  ∃ op,
    buildOperation (JArr []) (JStr "users") (JStr "get") "/users"
      (JObj emptyTextsDoc) = Ok op
    ∧ op !! "summary" = Some (JStr "")
    ∧ ∃ out e, op !! "responses" = Some (JObj out) ∧
               out !! "404" = Some (JObj e) ∧
               e !! "description" = Some (JStr "No description").
Proof.
  destruct (buildOperation (JArr []) (JStr "users") (JStr "get") "/users"
              (JObj emptyTextsDoc)) as [op|] eqn:E; [|by vm_compute in E].
  exists op. split; [done|].
  destruct (empty_description_vs_summary _ _ _ _ _ _ E) as [H1 H2].
  split; [by apply H2|].
  by apply (H1 (list_to_map [ ("404", Js.obj [ ("description", JStr "") ]) ])
              "404" {[ "description" := JStr "" ]}).
Defined.

End operation.

(** ** The cleanup pass *)

Section cleanup.
Implicit Types spec c m : gmap string JsVal.

Lemma pruneCategory_lookup c key k :
  pruneCategory c key !! k =
  if bool_decide (k = key) && prunable (Js.get_obj c key) then None else c !! k.
Proof.
  unfold pruneCategory. fold (prunable (Js.get_obj c key)).
  destruct (prunable _).
  - destruct (decide (k = key)) as [->|Hne].
    + rewrite bool_decide_eq_true_2 by done. apply lookup_delete_eq.
    + rewrite bool_decide_eq_false_2 by done. by apply lookup_delete_ne.
  - by rewrite andb_false_r.
Qed.

(** The [forEach] of lines 190-194 removes the listed keys whose value is
    truthy and has no key, and nothing else. *)
Lemma pruneCategories_lookup keys c k :
  foldl pruneCategory c keys !! k =
  if bool_decide (k ∈ keys) && prunable (Js.get_obj c k) then None else c !! k.
Proof.
  revert c. induction keys as [|key keys IH]; intros c; [done|].
  simpl. rewrite IH, pruneCategory_lookup.
  destruct (decide (k = key)) as [->|Hne].
  - rewrite (bool_decide_eq_true_2 (key = key)) by done.
    rewrite (bool_decide_eq_true_2 (key ∈ key :: keys))
      by (apply elem_of_cons; by left).
    simpl. destruct (prunable (Js.get_obj c key)) eqn:E.
    + by destruct (_ && _).
    + rewrite (get_obj_ext _ c).
      * rewrite E. by rewrite andb_false_r.
      * rewrite pruneCategory_lookup, E. by rewrite andb_false_r.
  - rewrite (bool_decide_eq_false_2 (k = key)) by done. simpl.
    rewrite (get_obj_ext _ c)
      by (rewrite pruneCategory_lookup, bool_decide_eq_false_2 by done; done).
    rewrite (bool_decide_ext (k ∈ key :: keys) (k ∈ keys)); [done|].
    rewrite elem_of_cons. tauto.
Qed.

(** A mapping is pruned exactly when it is empty. *)
Lemma prunable_JObj m : prunable (JObj m) = bool_decide (m = ∅).
Proof. done. Qed.

Lemma cleanupTags_lookup spec k :
  cleanupTags spec !! k =
  match decide (k = "tags"), spec !! "tags" with
  | left _, Some (JArr []) => None
  | _, _ => spec !! k
  end.
Proof.
  unfold cleanupTags, Js.get_obj.
  destruct (decide (k = "tags")) as [->|Hne].
  - destruct (spec !! "tags") as [[| | | | | [|] | |]|] eqn:E;
      rewrite ?lookup_delete_eq; try done.
  - destruct (spec !! "tags") as [[| | | | | [|] | |]|] eqn:E;
      rewrite ?lookup_delete_ne by done; try done.
Qed.

Lemma cleanupComponents_lookup spec k :
  k ≠ "components" → (cleanupComponents spec).1 !! k = spec !! k.
Proof.
  intros Hk. unfold cleanupComponents.
  destruct (Js.truthy _); [|done].
  destruct (Js.get_obj spec "components"); simpl;
    repeat case_match; rewrite ?lookup_delete_ne, ?lookup_insert_ne by done; done.
Qed.

Lemma cleanupComponents_JObj spec c :
  spec !! "components" = Some (JObj c) →
  cleanupComponents spec =
  let c' := foldl pruneCategory c categories in
  (if bool_decide (c' = ∅) then delete "components" spec
   else <["components" := JObj c']> spec, Some c').
Proof. intros H. unfold cleanupComponents. by rewrite (get_obj_Some _ _ _ H). Qed.

Lemma cleanup_fst spec :
  (cleanupOpenAPISpec spec).1 = cleanupTags (cleanupComponents spec).1.
Proof. unfold cleanupOpenAPISpec. by destruct (cleanupComponents spec). Qed.

Lemma cleanup_snd spec :
  (cleanupOpenAPISpec spec).2 = (cleanupComponents spec).2.
Proof. unfold cleanupOpenAPISpec. by destruct (cleanupComponents spec). Qed.

(** The pass leaves every member but [components] and [tags]. *)
Lemma cleanup_lookup_other spec k :
  k ≠ "components" → k ≠ "tags" → (cleanupOpenAPISpec spec).1 !! k = spec !! k.
Proof.
  intros Hc Ht. rewrite cleanup_fst, cleanupTags_lookup.
  destruct (decide (k = "tags")); [done|]. by apply cleanupComponents_lookup.
Qed.



End cleanup.

(** ** The handler *)

Section handler.
Implicit Types resp spec defaults doc : gmap string JsVal.
Implicit Types paths : gmap string (gmap string JsVal).

Lemma minimalDocument_eq :
  minimalDocument =
  list_to_map [ ("openapi", JStr "3.0.0"); ("info", DEFAULT_info);
                ("servers", DEFAULT_servers); ("paths", JObj ∅) ].
Proof. vm_compute. reflexivity. Qed.

(** *** Servers *)

Lemma replace_final_slash_stripped u : stripped u (replace_final_slash u).
Proof.
  unfold replace_final_slash, stripped.
  destruct (Str.endsWith "/" u) eqn:E; [|by right].
  apply endsWith_char in E as [t ->]. left. by rewrite slice_snoc.
Qed.

Lemma adjustServer_prefixed prefix server server' :
  adjustServer (JStr prefix) server = Ok server' → prefixed prefix server server'.
Proof.
  unfold adjustServer. intros H. inv_bind H.
  destruct v; try done. injection H as <-.
  destruct server as [| | | | | |m|]; try done.
  injection E as E. exists m, s, (replace_final_slash s).
  repeat split; [|apply replace_final_slash_stripped].
  unfold Js.get_obj in E. destruct (m !! "url") as [w|]; [by subst|done].
Qed.

Lemma adjustServer_is_Some root m u :
  m !! "url" = Some (JStr u) → is_Some (adjustServer root (JObj m)).
Proof.
  intros H. unfold adjustServer. rewrite get_JObj, (get_obj_Some _ _ _ H).
  by eexists.
Qed.

Lemma adjustServers_lookup root resp resp' k :
  adjustServers root resp = Ok resp' → k ≠ "servers" → resp' !! k = resp !! k.
Proof.
  unfold adjustServers. intros H Hk.
  destruct (_ && _); [|by injection H as <-].
  destruct (Js.get_obj resp "servers"); try done.
  inv_bind H. injection H as <-. by rewrite lookup_insert_ne.
Qed.

Lemma adjustServers_trivial root resp :
  nonTrivialPrefix root = false → adjustServers root resp = Ok resp.
Proof. unfold adjustServers, nonTrivialPrefix. by intros ->. Qed.

Lemma nonTrivialPrefix_str prefix :
  prefix ≠ "" → prefix ≠ "/" → nonTrivialPrefix (JStr prefix) = true.
Proof.
  intros H1 H2. unfold nonTrivialPrefix. simpl.
  apply String.eqb_neq in H1, H2. by rewrite H1, H2.
Qed.

Lemma adjustServers_servers prefix resp resp' :
  prefix ≠ "" → prefix ≠ "/" →
  adjustServers (JStr prefix) resp = Ok resp' →
  ∃ l l', Js.get_obj resp "servers" = JArr l ∧
          resp' !! "servers" = Some (JArr l') ∧
          Forall2 (prefixed prefix) l l'.
Proof.
  intros H1 H2. unfold adjustServers.
  fold (nonTrivialPrefix (JStr prefix)). rewrite nonTrivialPrefix_str by done.
  destruct (Js.get_obj resp "servers") as [| | | | |l| |]; try done.
  intros H. inv_bind H. injection H as <-.
  exists l, v. split; [done|]. split; [apply lookup_insert_eq|].
  apply mapM_Some in E. eapply Forall2_impl; [done|].
  intros x y. apply adjustServer_prefixed.
Qed.

(** The adjustment completes on a list of servers with a [url]. *)
Lemma adjustServers_total root resp l :
  Js.get_obj resp "servers" = JArr l →
  Forall (λ server, ∃ m u, server = JObj m ∧ m !! "url" = Some (JStr u)) l →
  is_Some (adjustServers root resp).
Proof.
  intros Hl Hall. unfold adjustServers. destruct (_ && _); [|by eexists].
  rewrite Hl. assert (Hm : is_Some (mapM (adjustServer root) l)).
  { apply mapM_is_Some. eapply Forall_impl; [done|].
    intros server (m & u & -> & Hu). by eapply adjustServer_is_Some. }
  destruct Hm as [l' ->]. by eexists.
Qed.

(** *** The steps of a generation *)

Lemma generate_eq defaults red root template ap :
  readSettings (settings red) = Ok (root, template, ap) →
  generate defaults red =
  resp ← adjustServers root (baseDocument defaults template);
  paths ← eachNode (visitNode (getNode red) ap) ∅ (nodes red);
  Ok ((cleanupOpenAPISpec (<["paths" := JObj (JObj <$> paths)]> resp)).1,
      match Js.own_props template !! "components",
            (cleanupOpenAPISpec (<["paths" := JObj (JObj <$> paths)]> resp)).2 with
      | None, Some c' => <["components" := JObj c']> defaults
      | _, _ => defaults
      end).
Proof.
  intros Hs. unfold generate. rewrite Hs. bind_red. cbn iota.
  destruct (adjustServers _ _); [|done]. bind_red.
  destruct (eachNode _ _ _); [|done]. bind_red.
  by destruct (cleanupOpenAPISpec _).
Qed.

Lemma generate_inv defaults red doc defaults' :
  generate defaults red = Ok (doc, defaults') →
  ∃ root template ap resp paths,
    readSettings (settings red) = Ok (root, template, ap) ∧
    adjustServers root (baseDocument defaults template) = Ok resp ∧
    eachNode (visitNode (getNode red) ap) ∅ (nodes red) = Ok paths ∧
    let spec := <["paths" := JObj (JObj <$> paths)]> resp in
    doc = (cleanupOpenAPISpec spec).1 ∧
    defaults' =
      match Js.own_props template !! "components", (cleanupOpenAPISpec spec).2 with
      | None, Some c' => <["components" := JObj c']> defaults
      | _, _ => defaults
      end.
Proof.
  intros H. destruct (readSettings (settings red)) as [[[root template] ap]|] eqn:Hs;
    [|unfold generate in H; by rewrite Hs in H].
  rewrite (generate_eq _ _ _ _ _ Hs) in H. inv_bind H. injection H as <- <-.
  by exists root, template, ap, v, v0.
Qed.

Lemma handler_throw defaults red :
  generate defaults red = Throw →
  handler defaults red = (internalServerError, defaults).
Proof. unfold handler. by intros ->. Qed.

(** C7: when the base path is a string other than the empty one and [/],
    the servers of the document are those of the merged template, each with
    one final slash of its [url] removed and the base path appended; in
    particular the base path [/api] turns the default
    [http://localhost:1880/] into [http://localhost:1880/api]. *)
Theorem server_prefix :
  (∀ defaults red prefix template ap doc defaults',
     readSettings (settings red) = Ok (JStr prefix, template, ap) →
     prefix ≠ "" → prefix ≠ "/" →
     generate defaults red = Ok (doc, defaults') →
     ∃ l l', Js.get_obj (baseDocument defaults template) "servers" = JArr l ∧
             doc !! "servers" = Some (JArr l') ∧
             Forall2 (prefixed prefix) l l') ∧
  (handler DEFAULT_TEMPLATE apiPrefixExample).1 =
    ok200 (<["servers" :=
              JArr [ Js.obj [ ("url", JStr "http://localhost:1880/api");
                              ("description", JStr "Local server") ] ]]>
             minimalDocument).
Proof.
  split; [|by vm_compute].
  intros defaults red prefix template ap doc defaults' Hs H1 H2 H.
  apply generate_inv in H
    as (root & template' & ap' & resp & paths & Hs' & Ha & _ & Hdoc & _).
  rewrite Hs in Hs'. injection Hs' as <- <- <-.
  destruct (adjustServers_servers _ _ _ H1 H2 Ha) as (l & l' & Hl & Hl' & HF).
  exists l, l'. split; [done|]. split; [|done].
  rewrite Hdoc, cleanup_lookup_other by done.
  by rewrite lookup_insert_ne.
Qed.

Lemma server_prefix_witness :
  ∃ doc defaults' l l',
    generate DEFAULT_TEMPLATE apiPrefixExample = Ok (doc, defaults') ∧
    Js.get_obj (baseDocument DEFAULT_TEMPLATE (JObj ∅)) "servers" = JArr l ∧
    doc !! "servers" = Some (JArr l') ∧
    Forall2 (prefixed "/api") l l'.
Proof.
  destruct (generate DEFAULT_TEMPLATE apiPrefixExample) as [[doc d']|] eqn:G;
    [|by vm_compute in G].
  destruct (proj1 server_prefix DEFAULT_TEMPLATE apiPrefixExample "/api"
              (JObj ∅) (JArr []) doc d') as (l & l' & H);
    [reflexivity|done|done|done|].
  by exists doc, d', l, l'.
Defined.

(** *** Routes *)

Lemma visitNode_undocumented getNode ap paths node :
  nullish node = false → documented getNode node = false →
  visitNode getNode ap paths node = Ok paths.
Proof.
  intros Hn Hd. unfold visitNode. unfold documented in Hd.
  destruct (get_is_Some node "name" Hn) as [? ->].
  destruct (get_is_Some node "type" Hn) as [type Et].
  destruct (get_is_Some node "method" Hn) as [? ->].
  destruct (get_is_Some node "swaggerDoc" Hn) as [sd Es].
  destruct (get_is_Some node "url" Hn) as [? ->].
  rewrite Et, Es in Hd |- *. bind_red.
  destruct (Js.is_str "http in" type && Js.truthy sd); [|done].
  simpl in Hd. cbn zeta. by rewrite Hd.
Qed.

Lemma eachNode_undocumented red ap paths :
  noRoutesDocumented red →
  eachNode (visitNode (getNode red) ap) paths (nodes red) = Ok paths.
Proof.
  unfold noRoutesDocumented. induction 1 as [|node l [Hn Hd] _ IH]; [done|].
  simpl. by rewrite visitNode_undocumented.
Qed.

Lemma eachNode_app {S} (visit : S → JsVal → option S) s (l1 l2 : list JsVal) :
  eachNode visit s (l1 ++ l2)%list
  = eachNode visit s l1 ≫= λ s1, eachNode visit s1 l2.
Proof.
  revert s. induction l1 as [|n l1 IH]; intros s; [done|].
  simpl. destruct (visit s n); [apply IH|done].
Qed.

(** A visit leaves [resp.paths] alone, or puts an object under the
    converted path of a documented route. *)
Lemma visitNode_inv getNode ap paths node paths' :
  visitNode getNode ap paths node = Ok paths' →
  (documented getNode node = false ∧ paths' = paths) ∨
  (documented getNode node = true ∧
   ∃ u pathItem, Js.get node "url" = Ok (JStr u) ∧
     (paths' = <[endPoint u := pathItem]> paths ∨
      paths' = <[endPoint u := pathItem]> (<[endPoint u := ∅]> paths))).
Proof.
  unfold visitNode, documented. intros H.
  apply bind_Some_inv in H as (name & _ & H).
  apply bind_Some_inv in H as (type & -> & H).
  apply bind_Some_inv in H as (method & _ & H).
  apply bind_Some_inv in H as (sd & -> & H).
  apply bind_Some_inv in H as (url & -> & H).
  destruct (Js.is_str "http in" type && Js.truthy sd);
    [|left; by injection H as <-].
  cbn zeta in H. simpl.
  destruct (Js.truthy (getNode sd)); [|left; by injection H as <-].
  right. split; [done|]. destruct url as [| | | |u| | |]; try done.
  apply bind_Some_inv in H as (operation & _ & H).
  destruct method; try done. injection H as <-.
  destruct (paths !! endPoint u); eauto 6.
Qed.

Lemma visitNode_grows getNode ap paths node paths' k :
  visitNode getNode ap paths node = Ok paths' →
  is_Some (paths !! k) → is_Some (paths' !! k).
Proof.
  intros H Hk.
  apply visitNode_inv in H as [[_ ->]|(_ & u & p & _ & [-> | ->])];
    [done| |]; rewrite ?lookup_insert_is_Some;
    destruct (decide (endPoint u = k)); auto.
Qed.

Lemma visitNode_documented getNode ap paths node paths' :
  visitNode getNode ap paths node = Ok paths' →
  documented getNode node = true →
  ∃ u, Js.get node "url" = Ok (JStr u) ∧ is_Some (paths' !! endPoint u).
Proof.
  intros H Hd.
  apply visitNode_inv in H as [[E _]|(_ & u & p & Hu & [-> | ->])];
    [congruence| |]; exists u; (split; [done|]);
    rewrite lookup_insert_eq; by eexists.
Qed.

Lemma eachNode_grows getNode ap l paths paths' k :
  eachNode (visitNode getNode ap) paths l = Ok paths' →
  is_Some (paths !! k) → is_Some (paths' !! k).
Proof.
  revert paths. induction l as [|node l IH]; intros paths H Hk.
  - by injection H as <-.
  - simpl in H. apply bind_Some_inv in H as (p1 & Hv & H).
    eapply IH; [done|]. by eapply visitNode_grows.
Qed.

Lemma eachNode_complete getNode ap l paths paths' node :
  eachNode (visitNode getNode ap) paths l = Ok paths' →
  node ∈ l → documented getNode node = true →
  ∃ u, Js.get node "url" = Ok (JStr u) ∧ is_Some (paths' !! endPoint u).
Proof.
  revert paths. induction l as [|n l IH]; intros paths H Hin Hd.
  - by apply elem_of_nil in Hin.
  - simpl in H. apply bind_Some_inv in H as (p1 & Hv & H).
    apply elem_of_cons in Hin as [->|Hin]; [|by eapply IH].
    destruct (visitNode_documented _ _ _ _ _ Hv Hd) as (u & Hu & Hp).
    exists u. split; [done|]. by eapply eachNode_grows.
Qed.

(** *** The shared default template *)

(** Requests prune the [components] of [DEFAULT_TEMPLATE] and change nothing
    else in it. *)
Lemma reachable_inv defaults :
  reachable defaults → defaults = DEFAULT_TEMPLATE ∨ defaults = prunedDefaults.
Proof.
  induction 1 as [|defaults red _ IH]; [by left|].
  unfold handler. destruct (generate defaults red) as [[doc d']|] eqn:G; [|done].
  apply generate_inv in G
    as (root & template & ap & resp & paths & _ & Ha & _ & _ & ->).
  cbn [snd]. destruct (Js.own_props template !! "components") eqn:Et; [done|].
  rewrite cleanup_snd.
  assert (Hc : (<["paths" := JObj (JObj <$> paths)]> resp) !! "components"
               = defaults !! "components").
  { rewrite lookup_insert_ne by done.
    rewrite (adjustServers_lookup _ _ _ _ Ha) by done.
    unfold baseDocument. rewrite lookup_insert_ne by done.
    by rewrite lookup_union_r. }
  right. destruct IH as [-> | ->].
  - rewrite (cleanupComponents_JObj _ DEFAULT_components) by (by rewrite Hc).
    reflexivity.
  - rewrite (cleanupComponents_JObj _ ∅) by (by rewrite Hc).
    reflexivity.
Qed.

(** C6, as stated, fails: with the base path [/api] configured, and no
    template, parameter or route, the servers of the document are not those
    of the default template. *)
Lemma minimal_claim_counterexample : ¬ minimal_claim apiPrefixExample.
Proof.
  intros H.
  specialize (H _ _ DEFAULT_TEMPLATE eq_refl eq_refl (Forall_nil_2 _) reachable_init).
  vm_compute in H. done.
Qed.

(** C6, amended: when no route is documented, the template of the settings
    has no member and no base path other than [/] is configured, the
    document is the default template restricted to [openapi], [info] and
    [servers] with an empty [paths]; [components] and [tags] are deleted.
    This holds on the first request and on every later one. *)
Theorem minimal_document red root template ap defaults :
  readSettings (settings red) = Ok (root, template, ap) →
  Js.own_props template = ∅ → nonTrivialPrefix root = false →
  noRoutesDocumented red → reachable defaults →
  (handler defaults red).1 = ok200 minimalDocument.
Proof.
  intros Hs Ht Hp Hn Hr. unfold handler.
  rewrite (generate_eq _ _ _ _ _ Hs).
  unfold baseDocument. rewrite Ht, (left_id_L ∅ (∪)).
  rewrite adjustServers_trivial by done. bind_red.
  rewrite eachNode_undocumented by done. bind_red. rewrite fmap_empty.
  destruct (reachable_inv _ Hr) as [-> | ->]; reflexivity.
Qed.

Lemma minimal_document_witness :
  (handler (handler DEFAULT_TEMPLATE noRoutesExample).2 noRoutesExample).1
  = ok200 minimalDocument.
Proof.
  apply (minimal_document noRoutesExample JUndefined (JObj ∅) (JArr [])).
  - reflexivity.
  - reflexivity.
  - reflexivity.
  - repeat constructor.
  - apply reachable_step, reachable_init.
Defined.

(** *** Failure *)

(** C8: a generation either completes, and the caller receives status 200
    with the document, in which every documented route has its path; or it
    throws, and the caller receives status 500 with exactly
    [{"error": "Internal server error"}].  An exception at any step (reading
    the settings, adjusting the servers, visiting any node, whatever the
    nodes before it have built) gives that response: no partial document is
    returned. *)
Theorem all_or_nothing defaults red :
  ((∃ doc defaults', generate defaults red = Ok (doc, defaults') ∧
      handler defaults red = (ok200 doc, defaults') ∧ complete red doc) ∨
   (generate defaults red = Throw ∧
      handler defaults red = (internalServerError, defaults))) ∧
  (readSettings (settings red) = Throw →
     handler defaults red = (internalServerError, defaults)) ∧
  (∀ root template ap,
     readSettings (settings red) = Ok (root, template, ap) →
     adjustServers root (baseDocument defaults template) = Throw →
     handler defaults red = (internalServerError, defaults)) ∧
  (∀ root template ap (before after : list JsVal) node paths,
     readSettings (settings red) = Ok (root, template, ap) →
     nodes red = (before ++ node :: after)%list →
     eachNode (visitNode (getNode red) ap) ∅ before = Ok paths →
     visitNode (getNode red) ap paths node = Throw →
     handler defaults red = (internalServerError, defaults)) ∧
  body internalServerError = JObj {[ "error" := JStr "Internal server error" ]}.
Proof.
  repeat split.
  - destruct (generate defaults red) as [[doc d']|] eqn:G; [left|right].
    + exists doc, d'. split; [done|]. split; [unfold handler; by rewrite G|].
      apply generate_inv in G
        as (root & template & ap & resp & paths & _ & _ & He & -> & _).
      exists paths. split.
      * rewrite cleanup_lookup_other by done. apply lookup_insert_eq.
      * intros node Hin Hd. by eapply eachNode_complete.
    + split; [done|]. by apply handler_throw.
  - intros H. apply handler_throw. unfold generate. by rewrite H.
  - intros root template ap Hs Ha. apply handler_throw.
    by rewrite (generate_eq _ _ _ _ _ Hs), Ha.
  - intros root template ap before after node paths Hs Hn Hb Hv.
    apply handler_throw. rewrite (generate_eq _ _ _ _ _ Hs).
    destruct (adjustServers _ _); [|done]. bind_red.
    rewrite Hn, eachNode_app, Hb. bind_red. simpl. by rewrite Hv.
Qed.

Lemma all_or_nothing_witness :
  handler DEFAULT_TEMPLATE twoRoutesExample = (internalServerError, DEFAULT_TEMPLATE).
Proof.
  destruct (all_or_nothing DEFAULT_TEMPLATE twoRoutesExample) as (_ & _ & _ & H & _).
  destruct (eachNode (visitNode (getNode twoRoutesExample) (JArr [])) ∅
              [listUsersRoute]) as [paths|] eqn:E; [|by vm_compute in E].
  apply (H JUndefined (JObj ∅) (JArr []) [listUsersRoute] [] brokenRoute paths).
  - reflexivity.
  - reflexivity.
  - done.
  - vm_compute in E. injection E as <-. vm_compute. reflexivity.
Defined.

End handler.

(** ** Tags *)

Section tags.
Implicit Types s t p q x : string.

Lemma str_rev_app_app s t p :
  String.rev_app (String.rev_app s t) p = String.rev_app t (s +:+ p).
Proof.
  revert t p. induction s as [|c s IH]; intros t p; [done|].
  simpl. by rewrite IH.
Qed.

Lemma str_app_nil_r s : s +:+ "" = s.
Proof. induction s as [|c s IH]; simpl; [done | by rewrite IH]. Qed.

Lemma str_rev_involutive s : String.rev (String.rev s) = s.
Proof. unfold String.rev. rewrite str_rev_app_app. simpl. apply str_app_nil_r. Qed.

Lemma str_rev_app_eq s t : String.rev_app s t = String.rev s +:+ t.
Proof.
  unfold String.rev. revert t. induction s as [|c s IH]; intros t; [done|].
  simpl. rewrite (IH (String c "")), IH, str_app_assoc. done.
Qed.

Lemma str_rev_append s t : String.rev (s +:+ t) = String.rev t +:+ String.rev s.
Proof.
  induction s as [|c s IH]; simpl.
  - by rewrite str_app_nil_r.
  - unfold String.rev at 1 3. simpl. rewrite !str_rev_app_eq, IH.
    by rewrite str_app_assoc.
Qed.

Lemma trimStart_id s : headb notSpace s = true → Str.trimStart s = s.
Proof.
  destruct s as [|c s]; [done|]. simpl. unfold notSpace.
  by destruct (Str.isSpace c).
Qed.

Lemma trimStart_head s : headb notSpace (Str.trimStart s) = true.
Proof.
  induction s as [|c s IH]; [done|]. simpl.
  destruct (Str.isSpace c) eqn:E; [done|]. simpl. unfold notSpace. by rewrite E.
Qed.

Lemma trimStart_split s : ∃ sp, s = sp +:+ Str.trimStart s.
Proof.
  induction s as [|c s [sp IH]]; [by exists ""|]. simpl.
  destruct (Str.isSpace c).
  - exists (String c sp). simpl. by rewrite <-IH.
  - by exists "".
Qed.

Lemma headb_app P s t : s ≠ "" → headb P (s +:+ t) = headb P s.
Proof. by destruct s. Qed.

(** [trim] leaves no white space at either end. *)
Lemma trim_trimmed s : trimmed (Str.trim s).
Proof.
  unfold trimmed, Str.trim. rewrite str_rev_involutive.
  split; [|apply trimStart_head].
  set (y := Str.trimStart s).
  destruct (trimStart_split (String.rev y)) as [sp Hsp].
  set (z := Str.trimStart (String.rev y)) in *.
  assert (Hy : y = String.rev z +:+ String.rev sp).
  { by rewrite <-str_rev_append, <-Hsp, str_rev_involutive. }
  destruct (decide (String.rev z = "")) as [->|Hne]; [done|].
  rewrite <-(headb_app _ _ (String.rev sp)) by done. rewrite <-Hy.
  apply trimStart_head.
Qed.

Lemma trim_id s : trimmed s → Str.trim s = s.
Proof.
  intros [H1 H2]. unfold Str.trim.
  by rewrite (trimStart_id s), (trimStart_id (String.rev s)), str_rev_involutive.
Qed.

Lemma split_go_length sep cur s :
  length (Str.split_go sep cur s) = S (count_char sep s).
Proof.
  revert cur. induction s as [|c s IH]; intros cur; [done|]. simpl.
  destruct (Str.is_char sep c); simpl; by rewrite IH.
Qed.

(** X1: for a non-empty text, [csvStrToArray] gives one tag more than the
    text has commas, and no tag has white space at either end. *)
Theorem csvStrToArray_tags s :
  s ≠ "" →
  ∃ l, csvStrToArray (JStr s) = Ok (JArr (JStr <$> l)) ∧
       length l = S (count_char "," s) ∧ Forall trimmed l.
Proof.
  intros Hs. exists (trimAll (Str.split "," s)). split; [|split].
  - unfold csvStrToArray. simpl. apply String.eqb_neq in Hs. by rewrite Hs.
  - unfold trimAll, Str.split. by rewrite length_fmap, split_go_length.
  - unfold trimAll. apply Forall_fmap, Forall_forall. intros x _. apply trim_trimmed.
Qed.

Lemma csvStrToArray_tags_witness :
  ∃ l, csvStrToArray (JStr "users, admin") = Ok (JArr (JStr <$> l)) ∧
       length l = S (count_char "," "users, admin") ∧ Forall trimmed l.
Proof. apply csvStrToArray_tags. discriminate. Defined.

Lemma split_go_app sep cur x q :
  count_char sep x = 0 →
  Str.split_go sep cur (x +:+ q) = Str.split_go sep (cur +:+ x) q.
Proof.
  revert cur. induction x as [|c x IH]; intros cur Hx.
  - by rewrite str_app_nil_r.
  - simpl in Hx. change (String c x +:+ q) with (String c (x +:+ q)). simpl.
    destruct (Str.is_char sep c); [done|].
    rewrite IH by done. by rewrite str_app_assoc.
Qed.

Lemma split_join_cons x l :
  Forall (λ x, count_char "," x = 0) (x :: l) →
  Str.split_go "," "" (Js.join "," (x :: l)) = x :: l.
Proof.
  revert x. induction l as [|y l IH]; intros x Hall.
  - apply Forall_cons in Hall as [Hx _].
    simpl. rewrite <-(str_app_nil_r x) at 1. by rewrite split_go_app.
  - apply Forall_cons in Hall as [Hx Hall].
    change (Js.join "," (x :: y :: l)) with (x +:+ "," +:+ Js.join "," (y :: l)).
    rewrite split_go_app by done.
    change (Str.split_go "," ("" +:+ x) ("," +:+ Js.join "," (y :: l)))
      with (x :: Str.split_go "," "" (Js.join "," (y :: l))).
    by rewrite IH.
Qed.

Lemma split_join l :
  l ≠ [] → Forall (λ x, count_char "," x = 0) l →
  Str.split "," (Js.join "," l) = l.
Proof. destruct l as [|x l]; [done|]. intros _. apply split_join_cons. Qed.

(** X2: tags written as ASCII texts without comma and without white space at
    either end, joined with commas into a non-empty text, are read back by
    [csvStrToArray] as they were. *)
Theorem csvStrToArray_join l :
  Forall (λ x, asciiText x = true ∧ trimmed x ∧ count_char "," x = 0) l →
  Js.join "," l ≠ "" →
  csvStrToArray (JStr (Js.join "," l)) = Ok (JArr (JStr <$> l)).
Proof.
  intros Hall Hne. unfold csvStrToArray. simpl.
  apply String.eqb_neq in Hne. rewrite Hne. simpl. do 3 f_equal.
  rewrite split_join.
  - unfold trimAll. rewrite <-(list_fmap_id l) at 2. apply Forall_fmap_ext.
    eapply Forall_impl; [done|]. intros x (_ & Hx & _). by apply trim_id.
  - intros ->. by apply String.eqb_neq in Hne.
  - eapply Forall_impl; [done|]. by intros x (_ & _ & Hx).
Qed.

Lemma csvStrToArray_join_witness :
  csvStrToArray (JStr (Js.join "," [ "users"; "admin" ]))
  = Ok (JArr (JStr <$> [ "users"; "admin" ])).
Proof.
  apply csvStrToArray_join.
  - repeat constructor.
  - discriminate.
Defined.

End tags.

(** ** Parameter definitions *)

Section params.
Implicit Types m d : gmap string JsVal.

Lemma paramDef_schema m :
  Js.truthy (Js.get_obj m "schema") = true →
  paramDef (JObj m) = Ok (JObj (<["schema" := Js.get_obj m "schema"]> (paramBase m))).
Proof.
  intros Hs. unfold paramDef. rewrite !get_JObj. bind_red. by rewrite Hs.
Qed.

(** X3: a parameter with a truthy [schema] is defined by its [name], [in],
    [required], [description] and [schema] alone: [type], [format], [items]
    and [collectionFormat] are not read, and the definition has neither
    [style] nor [explode]. *)
Theorem paramDef_schema_precedence m m' :
  Js.truthy (Js.get_obj m "schema") = true →
  (∀ k, k ∈ ["name"; "in"; "required"; "description"; "schema"] →
        Js.get_obj m' k = Js.get_obj m k) →
  paramDef (JObj m') = paramDef (JObj m) ∧
  ∃ d, paramDef (JObj m) = Ok (JObj d) ∧
       d !! "schema" = Some (Js.get_obj m "schema") ∧
       d !! "style" = None ∧ d !! "explode" = None.
Proof.
  intros Hs Hk.
  assert (Hall : Forall (λ k, Js.get_obj m' k = Js.get_obj m k)
                   ["name"; "in"; "required"; "description"; "schema"])
    by (by apply Forall_forall).
  assert (Hs' : Js.truthy (Js.get_obj m' "schema") = true).
  { rewrite Hk; [done|]. do 4 apply list_elem_of_further. apply list_elem_of_here. }
  rewrite (paramDef_schema m Hs), (paramDef_schema m' Hs'). split.
  - unfold paramBase.
    repeat (apply Forall_cons in Hall as [-> Hall]). done.
  - eexists. split; [done|]. split; [apply lookup_insert_eq|]. split; reflexivity.
Qed.

Lemma paramDef_schema_precedence_witness :
  paramDef (JObj schemaOnlyParam) = paramDef (JObj schemaParam) ∧
  ∃ d, paramDef (JObj schemaParam) = Ok (JObj d) ∧
       d !! "schema" = Some (Js.get_obj schemaParam "schema") ∧
       d !! "style" = None ∧ d !! "explode" = None.
Proof.
  apply paramDef_schema_precedence.
  - reflexivity.
  - intros k Hk.
    repeat (apply elem_of_cons in Hk as [->|Hk]; [reflexivity|]).
    by apply elem_of_nil in Hk.
Defined.

Lemma is_str_truthy s v : s ≠ "" → Js.is_str s v = true → Js.truthy v = true.
Proof.
  intros Hs. destruct v; try done. simpl. intros ->%String.eqb_eq.
  apply String.eqb_neq in Hs. by rewrite Hs.
Qed.

Lemma dom_paramBase m :
  dom (paramBase m) = {["name"; "in"; "required"; "description"]}.
Proof.
  unfold paramBase. simpl. rewrite !dom_insert_L, dom_empty_L. set_solver.
Qed.



End params.

(** ** Operations that can be built *)

Section build.
Implicit Types m op r out : gmap string JsVal.

Lemma responseEntry_is_Some_iff v : is_Some (responseEntry v) ↔ nullish v = false.
Proof.
  split; [|apply responseEntry_is_Some].
  intros [e He]. destruct (nullish v) eqn:E; [|done].
  unfold responseEntry in He. by rewrite (get_nullish v "description" E) in He.
Qed.

Lemma processResponses_is_Some responses :
  is_Some (processResponses responses) ↔
  (Js.truthy responses && Js.typeof_object responses = true →
   ∀ k v, Js.own_props responses !! k = Some v → nullish v = false).
Proof.
  unfold processResponses.
  destruct (Js.truthy responses && Js.typeof_object responses).
  - split.
    + intros [out Hout] _ k v Hk. apply responseEntry_is_Some_iff.
      by eapply addResponse_fold_entries.
    + intros H. apply addResponse_fold_is_Some. by apply H.
  - split; [done|]. by eexists.
Qed.

Lemma addRequestBody_eq requestBody op :
  addRequestBody requestBody op =
  Ok (if bodyKept requestBody then <["requestBody" := requestBody]> op else op).
Proof.
  unfold addRequestBody, bodyKept. destruct (Js.truthy requestBody) eqn:Et; [|done].
  destruct (get_is_Some requestBody "content") as [c ->]; [by destruct requestBody|].
  done.
Qed.

Lemma operationSummary_is_Some name method ep m :
  is_Some (operationSummary name method ep (JObj m)) ↔ summaryAvailable name method m.
Proof.
  unfold operationSummary, summaryAvailable. rewrite get_JObj. bind_red.
  destruct (Js.get_obj m "summary") eqn:E;
    try (split; [intros _; by left | intros _; by eexists]).
  unfold summaryDefault. destruct (Js.truthy name).
  { split; [intros _; right; by left|intros _; by eexists]. }
  destruct method; (split; [intros [? ?]|intros [?|[?|[? ?]]]]); try done; eauto.
Qed.

Lemma csvStrToArray_is_Some v :
  is_Some (csvStrToArray v) ↔ Js.truthy v = false ∨ ∃ s, v = JStr s.
Proof.
  unfold csvStrToArray. destruct (Js.truthy v) eqn:E.
  - destruct v; (split; [intros [? ?]|intros [?|[? ?]]]); try done; eauto.
  - split; [by left|by eexists].
Qed.

Lemma mapM_paramDef_is_Some l :
  is_Some (mapM paramDef l) ↔ Forall (λ p, nullish p = false) l.
Proof.
  rewrite mapM_is_Some. apply Forall_proper; [|done]. intros p.
  split.
  - intros [d Hd]. destruct (nullish p) eqn:E; [|done].
    unfold paramDef in Hd. by rewrite (get_nullish p "name" E) in Hd.
  - apply paramDef_is_Some.
Qed.

(** The steps of [buildOperation] on an object. *)
Lemma buildOperation_eq ap name method ep m :
  buildOperation ap name method ep (JObj m) =
  summary ← operationSummary name method ep (JObj m);
  aryTags ← csvStrToArray (Js.dflt (JStr "") (Js.get_obj m "tags"));
  ps ← Js.iterate (Js.dflt (JArr []) (Js.get_obj m "parameters"));
  qs ← Js.iterate ap;
  defs ← mapM paramDef (ps ++ qs)%list;
  out ← processResponses (Js.dflt (JObj ∅) (Js.get_obj m "responses"));
  let requestBody := Js.dflt JNull (Js.get_obj m "requestBody") in
  let operation : gmap string JsVal :=
    list_to_map
      [ ("summary", summary);
        ("description", Js.dflt (JStr "") (Js.get_obj m "description"));
        ("tags", aryTags);
        ("deprecated", Js.dflt (JBool false) (Js.get_obj m "deprecated"));
        ("parameters", JArr defs); ("responses", JObj ∅) ] in
  Ok (<["responses" := JObj (ensureResponse out)]>
        (if bodyKept requestBody then <["requestBody" := requestBody]> operation
         else operation)).
Proof.
  unfold buildOperation. rewrite !get_JObj.
  destruct (operationSummary _ _ _ _); [|done]. bind_red. simpl fmap. bind_red.
  destruct (csvStrToArray _); [|done]. bind_red.
  destruct (Js.iterate (Js.dflt _ _)); [|done]. bind_red.
  destruct (Js.iterate ap); [|done]. bind_red.
  destruct (mapM _ _); [|done]. bind_red.
  rewrite addRequestBody_eq. bind_red.
  by destruct (processResponses _).
Qed.

(** The conditions under which an operation is built are sufficient. *)
Lemma buildable_is_Some ap name method ep m :
  buildable ap name method m →
  is_Some (buildOperation ap name method ep (JObj m)).
Proof.
  rewrite buildOperation_eq.
  intros (Hs & Ht & (ps & qs & Hps & Hqs & Hall) & Hr).
  apply (operationSummary_is_Some name method ep) in Hs as [summary ->]. bind_red.
  assert (Hc : is_Some (csvStrToArray (Js.dflt (JStr "") (Js.get_obj m "tags")))).
  { apply csvStrToArray_is_Some. unfold tagsSplittable in Ht.
    destruct Ht as [?|[s ->]]; [by left|right; eauto]. }
  destruct Hc as [tags ->]. bind_red. rewrite Hps, Hqs. bind_red.
  apply mapM_paramDef_is_Some in Hall as [defs ->]. bind_red.
  unfold responsesUsable in Hr. cbn zeta in Hr.
  apply processResponses_is_Some in Hr as [out ->]. by eexists.
Qed.


(** X7: the parameters of an operation are the definitions of the record's
    parameters, in their order, followed by the definitions of the
    additional parameters of the settings, in their order. *)
Theorem buildOperation_parameters ap name method ep m op :
  buildOperation ap name method ep (JObj m) = Ok op →
  ∃ ps qs dps dqs,
    Js.iterate (Js.dflt (JArr []) (Js.get_obj m "parameters")) = Ok ps ∧
    Js.iterate ap = Ok qs ∧
    Forall2 (λ p d, paramDef p = Ok d) ps dps ∧
    Forall2 (λ p d, paramDef p = Ok d) qs dqs ∧
    op !! "parameters" = Some (JArr (dps ++ dqs)%list).
Proof.
  rewrite buildOperation_eq. intros H.
  apply bind_Some_inv in H as (summary & Hs & H).
  apply bind_Some_inv in H as (tags & Ht & H).
  apply bind_Some_inv in H as (ps & Hps & H).
  apply bind_Some_inv in H as (qs & Hqs & H).
  apply bind_Some_inv in H as (defs & Hd & H).
  apply bind_Some_inv in H as (out & Ho & H).
  cbn zeta in H. injection H as <-.
  apply mapM_Some in Hd. apply Forall2_app_inv_l in Hd as (dps & dqs & H1 & H2 & ->).
  exists ps, qs, dps, dqs. repeat split; try done.
  rewrite lookup_insert_ne by done. by destruct (bodyKept _).
Qed.

(** The example record can be built into an operation. *)
Lemma createUserDoc_buildable ap qs :
  ap = JArr qs → Forall (λ p, nullish p = false) qs →
  buildable ap JUndefined (JStr "post") createUserDoc.
Proof.
  intros -> Hqs. split; [|split; [|split]].
  - right. right. by eexists.
  - right. by exists "users, admin".
  - exists [ pageParam ], qs. split; [reflexivity|]. split; [reflexivity|].
    by apply Forall_cons.
  - intros _ k v Hk. change ((∅ : gmap string JsVal) !! k = Some v) in Hk.
    by rewrite lookup_empty in Hk.
Qed.

Lemma buildOperation_parameters_witness :
  ∃ op,
    buildOperation (JArr [ apiKeyParam ]) JUndefined (JStr "post") "/users"
      (JObj createUserDoc) = Ok op ∧
    ∃ ps qs dps dqs,
      Js.iterate (Js.dflt (JArr []) (Js.get_obj createUserDoc "parameters")) = Ok ps ∧
      Js.iterate (JArr [ apiKeyParam ]) = Ok qs ∧
      Forall2 (λ p d, paramDef p = Ok d) ps dps ∧
      Forall2 (λ p d, paramDef p = Ok d) qs dqs ∧
      op !! "parameters" = Some (JArr (dps ++ dqs)%list).
Proof.
  destruct (buildable_is_Some (JArr [ apiKeyParam ]) JUndefined
              (JStr "post") "/users" createUserDoc) as [op E].
  { apply (createUserDoc_buildable _ [ apiKeyParam ]); [reflexivity|].
    by repeat constructor. }
  exists op. split; [exact E|].
  exact (buildOperation_parameters _ _ _ _ _ _ E).
Defined.

(** X8: an operation has the members [summary], [description], [tags],
    [deprecated], [parameters] and [responses], and [requestBody] exactly
    when the record's request body is truthy and its [content] has a key;
    [description] defaults to the empty text and [deprecated] to [false]. *)
Theorem buildOperation_members ap name method ep m op :
  buildOperation ap name method ep (JObj m) = Ok op →
  dom op = {["summary"; "description"; "tags"; "deprecated"; "parameters"; "responses"]}
           ∪ (if bodyKept (Js.dflt JNull (Js.get_obj m "requestBody"))
              then {["requestBody"]} else ∅) ∧
  op !! "requestBody" =
    (if bodyKept (Js.dflt JNull (Js.get_obj m "requestBody"))
     then Some (Js.get_obj m "requestBody") else None) ∧
  op !! "description" = Some (Js.dflt (JStr "") (Js.get_obj m "description")) ∧
  op !! "deprecated" = Some (Js.dflt (JBool false) (Js.get_obj m "deprecated")).
Proof.
  rewrite buildOperation_eq. intros H.
  apply bind_Some_inv in H as (summary & Hs & H).
  apply bind_Some_inv in H as (tags & Ht & H).
  apply bind_Some_inv in H as (ps & Hps & H).
  apply bind_Some_inv in H as (qs & Hqs & H).
  apply bind_Some_inv in H as (defs & Hd & H).
  apply bind_Some_inv in H as (out & Ho & H).
  cbn zeta in H. injection H as <-.
  destruct (bodyKept _) eqn:Eb.
  - split; [|split; [|split; reflexivity]].
    + rewrite !dom_insert_L, dom_empty_L. set_solver.
    + rewrite lookup_insert_ne by done. rewrite lookup_insert_eq.
      destruct (Js.get_obj m "requestBody"); done.
  - split; [|split; [|split; reflexivity]].
    + rewrite !dom_insert_L, dom_empty_L. set_solver.
    + reflexivity.
Qed.

Lemma buildOperation_members_witness :
  ∃ op,
    buildOperation (JArr []) JUndefined (JStr "post") "/users"
      (JObj createUserDoc) = Ok op ∧
    op !! "description" = Some (JStr "") ∧
    op !! "deprecated" = Some (JBool false).
Proof.
  destruct (buildable_is_Some (JArr []) JUndefined
              (JStr "post") "/users" createUserDoc) as [op E].
  { apply (createUserDoc_buildable _ []); [reflexivity|]. constructor. }
  exists op. split; [exact E|].
  destruct (buildOperation_members _ _ _ _ _ _ E) as (_ & _ & H2 & H3).
  split; [exact H2|exact H3].
Defined.

End build.

(** ** Routes *)

Section routes.
Implicit Types paths : gmap string (gmap string JsVal).

(** The visit of a node, once its members are read. *)
Lemma visitNode_eq getNode ap paths node name type method swaggerDoc url :
  Js.get node "name" = Ok name → Js.get node "type" = Ok type →
  Js.get node "method" = Ok method → Js.get node "swaggerDoc" = Ok swaggerDoc →
  Js.get node "url" = Ok url →
  visitNode getNode ap paths node =
  if documented getNode node then
    match url with
    | JStr u =>
        operation ← buildOperation ap name method (endPoint u) (getNode swaggerDoc);
        match method with
        | JStr m =>
            Ok (<[endPoint u :=
                   Js.set (default ∅ (paths !! endPoint u)) (Str.toLowerCase m)
                     (JObj operation)]> paths)
        | _ => Throw
        end
    | _ => Throw
    end
  else Ok paths.
Proof.
  intros Hn Ht Hm Hs Hu. unfold visitNode, documented.
  rewrite Hn, Ht, Hm, Hs, Hu. bind_red.
  destruct (Js.is_str "http in" type && Js.truthy swaggerDoc); [|done].
  cbn zeta. simpl andb. destruct (Js.truthy (getNode swaggerDoc)); [|done].
  destruct url; try done.
  destruct (buildOperation _ _ _ _ _); [|done]. bind_red.
  destruct method; try done. f_equal.
  destruct (paths !! endPoint s) eqn:E.
  - by rewrite E.
  - rewrite lookup_insert_eq. simpl. by rewrite insert_insert_eq.
Qed.

Lemma node_members node :
  nullish node = false →
  ∃ name type method swaggerDoc url,
    Js.get node "name" = Ok name ∧ Js.get node "type" = Ok type ∧
    Js.get node "method" = Ok method ∧ Js.get node "swaggerDoc" = Ok swaggerDoc ∧
    Js.get node "url" = Ok url.
Proof.
  intros Hn.
  destruct (get_is_Some node "name" Hn) as [? ?].
  destruct (get_is_Some node "type" Hn) as [? ?].
  destruct (get_is_Some node "method" Hn) as [? ?].
  destruct (get_is_Some node "swaggerDoc" Hn) as [? ?].
  destruct (get_is_Some node "url" Hn) as [? ?]. eauto 10.
Qed.

Lemma visitNode_nullish getNode ap paths node :
  nullish node = true → visitNode getNode ap paths node = Throw.
Proof. intros H. unfold visitNode. by rewrite (get_nullish node "name" H). Qed.

(** The paths after the visit of a documented route. *)
Lemma visitNode_result getNode ap paths node paths' :
  visitNode getNode ap paths node = Ok paths' →
  documented getNode node = true →
  ∃ u mth name swaggerDoc op,
    Js.get node "url" = Ok (JStr u) ∧ Js.get node "method" = Ok (JStr mth) ∧
    Js.get node "name" = Ok name ∧ Js.get node "swaggerDoc" = Ok swaggerDoc ∧
    buildOperation ap name (JStr mth) (endPoint u) (getNode swaggerDoc) = Ok op ∧
    paths' = <[endPoint u :=
                Js.set (default ∅ (paths !! endPoint u)) (Str.toLowerCase mth)
                  (JObj op)]> paths.
Proof.
  intros H Hd.
  destruct (nullish node) eqn:Hn; [by rewrite visitNode_nullish in H|].
  destruct (node_members node Hn)
    as (name & type & method & sd & url & Hname & Htype & Hm & Hs & Hu).
  rewrite (visitNode_eq _ _ _ _ _ _ _ _ _ Hname Htype Hm Hs Hu), Hd in H.
  destruct url as [| | | |u| | |]; try done.
  apply bind_Some_inv in H as (op & Hop & H).
  destruct method as [| | | |mth| | |]; try done. injection H as <-.
  by exists u, mth, name, sd, op.
Qed.

Lemma set_lookup_eq (m : gmap string JsVal) i x :
  i ≠ "__proto__" → Js.set m i x !! i = Some x.
Proof.
  intros Hne. rewrite set_lookup. apply String.eqb_neq in Hne.
  by rewrite Hne, decide_True.
Qed.

Lemma set_lookup_ne (m : gmap string JsVal) i x k :
  k ≠ i → Js.set m i x !! k = m !! k.
Proof.
  intros Hne. rewrite set_lookup.
  destruct (String.eqb _ "__proto__"); [done|]. by rewrite decide_False.
Qed.

(** X9: the operation of a documented route is stored under the converted
    path of its [url] and its lower-cased [method]; it replaces an operation
    already there, and every other method of that path and every other path
    is kept. *)
Theorem visitNode_store getNode ap paths node paths' :
  visitNode getNode ap paths node = Ok paths' →
  documented getNode node = true →
  ∃ u mth name swaggerDoc op item,
    Js.get node "url" = Ok (JStr u) ∧ Js.get node "method" = Ok (JStr mth) ∧
    Js.get node "name" = Ok name ∧ Js.get node "swaggerDoc" = Ok swaggerDoc ∧
    buildOperation ap name (JStr mth) (endPoint u) (getNode swaggerDoc) = Ok op ∧
    paths' !! endPoint u = Some item ∧
    (Str.toLowerCase mth ≠ "__proto__" →
       item !! Str.toLowerCase mth = Some (JObj op)) ∧
    (∀ k, k ≠ Str.toLowerCase mth →
       item !! k = paths !! endPoint u ≫= (λ old, old !! k)) ∧
    (∀ p, p ≠ endPoint u → paths' !! p = paths !! p).
Proof.
  intros H Hd.
  destruct (visitNode_result _ _ _ _ _ H Hd)
    as (u & mth & name & sd & op & Hu & Hm & Hn & Hs & Hop & ->).
  eexists u, mth, name, sd, op, _. repeat split; try done.
  - apply lookup_insert_eq.
  - apply set_lookup_eq.
  - intros k Hk. rewrite set_lookup_ne by done.
    by destruct (paths !! endPoint u).
  - intros p Hp. by rewrite lookup_insert_ne.
Qed.

(** Whether a visit succeeds does not depend on the paths built so far. *)
Lemma visitNode_is_Some getNode ap paths node :
  is_Some (visitNode getNode ap paths node) ↔ routeUsable getNode ap node.
Proof.
  unfold routeUsable.
  destruct (nullish node) eqn:Hn.
  { rewrite visitNode_nullish by done. split; [by intros [? ?]|by intros [? _]]. }
  destruct (node_members node Hn)
    as (name & type & method & sd & url & Hname & Htype & Hm & Hs & Hu).
  rewrite (visitNode_eq _ _ _ _ _ _ _ _ _ Hname Htype Hm Hs Hu).
  destruct (documented getNode node).
  2:{ split; [done|]. by eexists. }
  split.
  - intros [p H]. split; [done|]. intros _.
    destruct url as [| | | |u| | |]; try done.
    apply bind_Some_inv in H as (op & Hop & H).
    destruct method as [| | | |mth| | |]; try done.
    exists u, mth, name, sd. by repeat split.
  - intros [_ H].
    destruct (H eq_refl) as (u & mth & name' & sd' & Hu' & Hm' & Hn' & Hs' & [op Hop]).
    simplify_eq. rewrite Hop. by eexists.
Qed.

Lemma eachNode_is_Some getNode ap l paths :
  is_Some (eachNode (visitNode getNode ap) paths l) ↔
  Forall (routeUsable getNode ap) l.
Proof.
  revert paths. induction l as [|node l IH]; intros paths.
  - split; [by constructor|by eexists].
  - rewrite Forall_cons. simpl. split.
    + intros [p H]. apply bind_Some_inv in H as (p1 & Hv & H). split.
      * apply (visitNode_is_Some _ _ paths). by eexists.
      * apply (IH p1). by eexists.
    + intros [Hv Hl]. apply (visitNode_is_Some _ _ paths) in Hv as [p1 ->].
      simpl. by apply IH.
Qed.

(** The route of the example can be visited. *)
Lemma listUsersRoute_usable ap qs :
  ap = JArr qs → Forall (λ p, nullish p = false) qs →
  routeUsable (getNode oneRouteExample) ap listUsersRoute.
Proof.
  intros -> Hqs. split; [done|]. intros _.
  exists "/users", "get", JUndefined, (JStr "doc1").
  split; [reflexivity|]. split; [reflexivity|]. split; [reflexivity|].
  split; [reflexivity|].
  change (getNode oneRouteExample (JStr "doc1"))
    with (JObj (list_to_map [ ("summary", JStr "List users") ])).
  apply buildable_is_Some. split; [|split; [|split]].
  - by left.
  - by left.
  - exists [], qs. split; [reflexivity|]. split; [reflexivity|]. done.
  - intros _ k v Hk. change ((∅ : gmap string JsVal) !! k = Some v) in Hk.
    by rewrite lookup_empty in Hk.
Qed.

Lemma visitNode_store_witness :
  ∃ paths' op item,
    visitNode (getNode oneRouteExample) (JArr []) ∅ listUsersRoute = Ok paths' ∧
    paths' !! "/users" = Some item ∧ item !! "get" = Some (JObj op).
Proof.
  destruct (proj2 (visitNode_is_Some (getNode oneRouteExample) (JArr []) ∅
                     listUsersRoute)) as [paths' E].
  { apply (listUsersRoute_usable _ []); [reflexivity|constructor]. }
  destruct (visitNode_store _ _ _ _ _ E)
    as (u & mth & name & sd & op & item & Hu & Hm & _ & _ & _ & Hi & Hg & _);
    [reflexivity|].
  injection Hu as <-. injection Hm as <-.
  exists paths', op, item. split; [exact E|]. split; [exact Hi|].
  by apply Hg.
Defined.

(** The keys of [resp.paths] after the nodes are visited. *)
Lemma eachNode_keys getNode ap l paths paths' k :
  eachNode (visitNode getNode ap) paths l = Ok paths' →
  is_Some (paths' !! k) ↔
  is_Some (paths !! k) ∨
  ∃ node u, node ∈ l ∧ documented getNode node = true ∧
            Js.get node "url" = Ok (JStr u) ∧ k = endPoint u.
Proof.
  revert paths. induction l as [|node l IH]; intros paths H.
  - injection H as <-. split; [by left|]. intros [?|(? & ? & []%elem_of_nil & _)]. done.
  - simpl in H. apply bind_Some_inv in H as (p1 & Hv & H).
    rewrite (IH _ H). clear IH H.
    apply visitNode_inv in Hv as [[Hd ->]|(Hd & u & item & Hu & Hp)].
    + split.
      * intros [?|(n & u & Hin & ?)]; [by left|right].
        exists n, u. split; [by apply elem_of_cons; right|done].
      * intros [?|(n & u & Hin & Hdn & Hun & ->)]; [by left|].
        apply elem_of_cons in Hin as [->|Hin]; [congruence|].
        right. by exists n, u.
    + assert (Hk : is_Some (p1 !! k) ↔ is_Some (paths !! k) ∨ k = endPoint u).
      { destruct Hp as [-> | ->]; rewrite ?lookup_insert_is_Some;
          destruct (decide (endPoint u = k)) as [E|E];
          intuition (eauto; congruence). }
      rewrite Hk. split.
      * intros [[? | ->]|(n & u' & Hin & ?)]; [by left| |].
        -- right. exists node, u. split; [by apply elem_of_cons; left|done].
        -- right. exists n, u'. split; [by apply elem_of_cons; right|done].
      * intros [?|(n & u' & Hin & Hdn & Hun & ->)]; [by left; left|].
        apply elem_of_cons in Hin as [->|Hin].
        -- left. right. congruence.
        -- right. by exists n, u'.
Qed.

(** A visit leaves the operations under every other key. *)
Lemma visitNode_other getNode ap paths node paths' key :
  visitNode getNode ap paths node = Ok paths' →
  (documented getNode node = true → routeKey node ≠ Some key) →
  operationAt paths' key = operationAt paths key.
Proof.
  intros H Hkey. destruct (documented getNode node) eqn:Hd.
  2:{ apply visitNode_inv in H as [[_ ->]|[? _]]; [done|congruence]. }
  destruct (visitNode_result _ _ _ _ _ H Hd)
    as (u & mth & name & sd & op & Hu & Hm & _ & _ & _ & ->).
  specialize (Hkey eq_refl). unfold routeKey in Hkey. rewrite Hu, Hm in Hkey.
  unfold operationAt. destruct key as [p k]. cbn [fst snd].
  destruct (decide (p = endPoint u)) as [->|Hne].
  - rewrite lookup_insert_eq. cbn. rewrite set_lookup_ne.
    + by destruct (paths !! endPoint u).
    + intros ->. by apply Hkey.
  - by rewrite lookup_insert_ne.
Qed.

Lemma eachNode_other getNode ap l paths paths' key :
  eachNode (visitNode getNode ap) paths l = Ok paths' →
  Forall (λ n, documented getNode n = true → routeKey n ≠ Some key) l →
  operationAt paths' key = operationAt paths key.
Proof.
  revert paths. induction l as [|node l IH]; intros paths H Hall.
  - by injection H as <-.
  - simpl in H. apply bind_Some_inv in H as (p1 & Hv & H).
    apply Forall_cons in Hall as [Hn Hall].
    rewrite (IH _ H Hall). by eapply visitNode_other.
Qed.



End routes.

(** ** Generation *)

Section generation.
Implicit Types resp spec defaults doc c : gmap string JsVal.
Implicit Types paths : gmap string (gmap string JsVal).

(** X11: the settings can be destructured exactly when [RED.settings] is
    neither [undefined] nor [null] and its [openapi] member is not [null]. *)
Theorem readSettings_succeeds_iff settings :
  is_Some (readSettings settings) ↔
  nullish settings = false ∧ Js.get settings "openapi" ≠ Ok JNull.
Proof.
  unfold readSettings. destruct (nullish settings) eqn:Hn.
  { rewrite (get_nullish settings "httpNodeRoot" Hn).
    split; [by intros [? ?]|by intros [? _]]. }
  destruct (get_is_Some settings "httpNodeRoot" Hn) as [root ->].
  destruct (get_is_Some settings "openapi" Hn) as [openapi ->]. bind_red.
  simpl fmap. bind_red.
  destruct (nullish (Js.dflt (JObj ∅) openapi)) eqn:Ho.
  - rewrite (get_nullish _ "template" Ho). split; [by intros [? ?]|].
    intros [_ H]. destruct openapi; done.
  - destruct (get_is_Some _ "template" Ho) as [t ->].
    destruct (get_is_Some _ "parameters" Ho) as [p ->]. simpl.
    split; [|by eexists]. intros _. split; [done|]. by destruct openapi.
Qed.

Lemma adjustServer_is_Some_iff root server :
  is_Some (adjustServer root server) ↔ hasUrl server.
Proof.
  split.
  - intros [s' H]. unfold adjustServer in H. inv_bind H.
    destruct v; try done. destruct server as [| | | | | |m|]; try done.
    injection E as E. exists m, s. split; [done|].
    unfold Js.get_obj in E. destruct (m !! "url") as [w|]; [by subst|done].
  - intros (m & u & -> & Hu). by eapply adjustServer_is_Some.
Qed.


(** X13: the handler answers 200 exactly when the settings can be read, the
    servers can be adjusted and every node can be visited; otherwise it
    answers 500. *)
Theorem handler_succeeds_iff defaults red :
  status (handler defaults red).1 = 200 ↔
  ∃ root template ap,
    readSettings (settings red) = Ok (root, template, ap) ∧
    is_Some (adjustServers root (baseDocument defaults template)) ∧
    Forall (routeUsable (getNode red) ap) (nodes red).
Proof.
  unfold handler.
  destruct (readSettings (settings red)) as [[[root template] ap]|] eqn:Hs.
  2:{ unfold generate. rewrite Hs. simpl. split; [done|].
      by intros (? & ? & ? & ? & _). }
  rewrite (generate_eq _ _ _ _ _ Hs).
  destruct (adjustServers root (baseDocument defaults template)) as [resp|] eqn:Ha.
  2:{ simpl. split; [done|]. intros (? & ? & ? & [= <- <- <-] & [? ?] & _). congruence. }
  bind_red.
  destruct (eachNode (visitNode (getNode red) ap) ∅ (nodes red)) as [paths|] eqn:He.
  - simpl. split; [|done]. intros _. exists root, template, ap.
    split; [done|]. split; [by eexists|].
    apply (eachNode_is_Some _ _ _ ∅). by eexists.
  - simpl. split; [done|]. intros (? & ? & ? & [= <- <- <-] & _ & Hall).
    apply (eachNode_is_Some _ _ _ ∅) in Hall as [? ?]. congruence.
Qed.

(** X14: the keys of [paths] in a generated document are exactly the
    converted paths of the documented routes. *)
Theorem document_paths defaults red doc defaults' :
  generate defaults red = Ok (doc, defaults') →
  ∃ paths, doc !! "paths" = Some (JObj (JObj <$> paths)) ∧
    ∀ k, is_Some (paths !! k) ↔
         ∃ node u, node ∈ nodes red ∧ documented (getNode red) node = true ∧
                   Js.get node "url" = Ok (JStr u) ∧ k = endPoint u.
Proof.
  intros H. apply generate_inv in H
    as (root & template & ap & resp & paths & _ & _ & He & -> & _).
  exists paths. split.
  - rewrite cleanup_lookup_other by done. apply lookup_insert_eq.
  - intros k. rewrite (eachNode_keys _ _ _ _ _ k He), lookup_empty.
    split; [intros [[? ?]|?]; done|by right].
Qed.

Lemma generate_is_Some defaults red root template ap :
  readSettings (settings red) = Ok (root, template, ap) →
  is_Some (adjustServers root (baseDocument defaults template)) →
  Forall (routeUsable (getNode red) ap) (nodes red) →
  ∃ doc defaults', generate defaults red = Ok (doc, defaults').
Proof.
  intros Hs [resp Ha] Hall. rewrite (generate_eq _ _ _ _ _ Hs), Ha. bind_red.
  apply (eachNode_is_Some _ _ _ ∅) in Hall as [paths ->]. bind_red. eauto.
Qed.

Lemma document_paths_witness :
  ∃ doc defaults' paths,
    generate DEFAULT_TEMPLATE oneRouteExample = Ok (doc, defaults') ∧
    doc !! "paths" = Some (JObj (JObj <$> paths)) ∧
    is_Some (paths !! "/users") ∧ paths !! "/orders" = None.
Proof.
  destruct (generate_is_Some DEFAULT_TEMPLATE oneRouteExample JUndefined (JObj ∅)
              (JArr [])) as (doc & d' & G).
  { reflexivity. }
  { rewrite adjustServers_trivial by reflexivity. by eexists. }
  { apply Forall_cons. split; [|constructor].
    apply (listUsersRoute_usable _ []); [reflexivity|constructor]. }
  destruct (document_paths _ _ _ _ G) as (paths & Hp & Hk).
  exists doc, d', paths. split; [exact G|]. split; [exact Hp|]. split.
  - apply Hk. exists listUsersRoute, "/users".
    split; [apply list_elem_of_here|].
    split; [by vm_compute|]. split; [reflexivity|by vm_compute].
  - apply eq_None_not_Some. intros (node & u & Hin & _ & Hu & He)%Hk.
    apply list_elem_of_singleton in Hin as ->. by injection Hu as <-.
Defined.

(** X15: every member of the document other than [paths], [components] and
    [tags], and other than [servers] under a prefix that is rewritten, is
    the member of the template of the settings if it has one, else the
    member of [DEFAULT_TEMPLATE]. *)
Theorem template_members defaults red root template ap doc defaults' k :
  reachable defaults →
  readSettings (settings red) = Ok (root, template, ap) →
  generate defaults red = Ok (doc, defaults') →
  k ∉ ["paths"; "components"; "tags"] →
  (k = "servers" → nonTrivialPrefix root = false) →
  doc !! k = (Js.own_props template ∪ DEFAULT_TEMPLATE) !! k.
Proof.
  intros Hr Hs H Hk Hsv. apply generate_inv in H
    as (root' & template' & ap' & resp & paths & Hs' & Ha & _ & -> & _).
  rewrite Hs in Hs'. injection Hs' as <- <- <-.
  assert (k ≠ "paths" ∧ k ≠ "components" ∧ k ≠ "tags") as (H1 & H2 & H3).
  { repeat split; intros ->; apply Hk;
      repeat first [apply list_elem_of_here | apply list_elem_of_further]. }
  rewrite cleanup_lookup_other, lookup_insert_ne by done.
  assert (Hd : defaults !! k = DEFAULT_TEMPLATE !! k).
  { destruct (reachable_inv _ Hr) as [-> | ->]; [done|].
    unfold prunedDefaults. by rewrite lookup_insert_ne. }
  assert (Hb : baseDocument defaults template !! k
               = (Js.own_props template ∪ DEFAULT_TEMPLATE) !! k).
  { unfold baseDocument. rewrite lookup_insert_ne by done.
    rewrite !lookup_union, Hd. done. }
  destruct (decide (k = "servers")) as [->|Hne].
  - rewrite adjustServers_trivial in Ha by auto. by injection Ha as <-.
  - by rewrite (adjustServers_lookup _ _ _ _ Ha).
Qed.

Lemma template_members_witness :
  ∃ doc defaults',
    generate DEFAULT_TEMPLATE oneRouteExample = Ok (doc, defaults') ∧
    doc !! "info" = Some DEFAULT_info.
Proof.
  destruct (generate_is_Some DEFAULT_TEMPLATE oneRouteExample JUndefined (JObj ∅)
              (JArr [])) as (doc & d' & G).
  { reflexivity. }
  { rewrite adjustServers_trivial by reflexivity. by eexists. }
  { apply Forall_cons. split; [|constructor].
    apply (listUsersRoute_usable _ []); [reflexivity|constructor]. }
  exists doc, d'. split; [exact G|].
  rewrite (template_members DEFAULT_TEMPLATE oneRouteExample JUndefined
             (JObj ∅) (JArr []) doc d' "info").
  - reflexivity.
  - apply reachable_init.
  - reflexivity.
  - exact G.
  - intros Hk. repeat (apply elem_of_cons in Hk as [Hk|Hk]; [discriminate Hk|]).
    by apply elem_of_nil in Hk.
  - discriminate.
Defined.

End generation.

(** ** The cleanup pass, member by member *)

Section cleanup_members.
Implicit Types resp spec defaults doc c : gmap string JsVal.

Lemma cleanupComponents_components spec :
  (cleanupComponents spec).1 !! "components" = cleanedComponents (spec !! "components").
Proof.
  unfold cleanupComponents, cleanedComponents, Js.get_obj, prunable.
  destruct (spec !! "components") as [v|] eqn:E; [|exact E].
  destruct v as [| |b|z|s|l|c|n]; cbn [Js.truthy]; try exact E.
  - destruct b; [|exact E]. cbn [andb].
    destruct (Js.no_keys _); cbn [fst]; [apply lookup_delete_eq|exact E].
  - destruct (negb _); [|exact E]. cbn [andb].
    destruct (Js.no_keys _); cbn [fst]; [apply lookup_delete_eq|exact E].
  - destruct (negb _); [|exact E]. cbn [andb].
    destruct (Js.no_keys _); cbn [fst]; [apply lookup_delete_eq|exact E].
  - cbn [andb].
    destruct (Js.no_keys _); cbn [fst]; [apply lookup_delete_eq|exact E].
  - cbn zeta. destruct (bool_decide _); cbn [fst];
      [apply lookup_delete_eq|apply lookup_insert_eq].
  - cbn [andb].
    destruct (Js.no_keys _); cbn [fst]; [apply lookup_delete_eq|exact E].
Qed.

Lemma cleanup_components_lookup spec :
  (cleanupOpenAPISpec spec).1 !! "components"
  = cleanedComponents (spec !! "components").
Proof.
  rewrite cleanup_fst, cleanupTags_lookup, decide_False by done.
  apply cleanupComponents_components.
Qed.

Lemma cleanup_tags_lookup spec :
  (cleanupOpenAPISpec spec).1 !! "tags" = cleanedTags (spec !! "tags").
Proof.
  rewrite cleanup_fst, cleanupTags_lookup, decide_True by done.
  rewrite !cleanupComponents_lookup by done.
  unfold cleanedTags. by destruct (spec !! "tags") as [[| | | | | [|] | |]|].
Qed.


Lemma pruneCategories_idem keys c :
  foldl pruneCategory (foldl pruneCategory c keys) keys
  = foldl pruneCategory c keys.
Proof.
  apply map_eq. intros k. rewrite (pruneCategories_lookup keys (foldl _ _ _)).
  destruct (bool_decide (k ∈ keys)) eqn:Ek; [|done]. cbn [andb].
  destruct (prunable (Js.get_obj (foldl pruneCategory c keys) k)) eqn:E'; [|done].
  rewrite pruneCategories_lookup, Ek. cbn [andb].
  destruct (prunable (Js.get_obj c k)) eqn:E; [done|].
  rewrite (get_obj_ext _ c) in E'; [congruence|].
  rewrite pruneCategories_lookup, E. by rewrite andb_false_r.
Qed.

Lemma cleanedComponents_other v :
  (∀ c, v ≠ JObj c) →
  cleanedComponents (Some v) = if prunable v then None else Some v.
Proof. intros Hv. destruct v; try done. by destruct (Hv m). Qed.

Lemma cleanedComponents_idem o :
  cleanedComponents (cleanedComponents o) = cleanedComponents o.
Proof.
  destruct o as [v|]; [|done].
  assert ((∃ c, v = JObj c) ∨ (∀ c, v ≠ JObj c)) as [[c ->]|Hv]
    by (destruct v; eauto).
  - cbn -[foldl categories].
    destruct (bool_decide (foldl pruneCategory c categories = ∅)) eqn:E; [done|].
    cbn -[foldl categories]. by rewrite pruneCategories_idem, E.
  - rewrite (cleanedComponents_other v Hv).
    destruct (prunable v) eqn:E; [done|].
    by rewrite (cleanedComponents_other v Hv), E.
Qed.

Lemma cleanedTags_idem o : cleanedTags (cleanedTags o) = cleanedTags o.
Proof. by destruct o as [[| | | | | [|] | |]|]. Qed.

(** X17: a second cleanup pass changes nothing. *)
Theorem cleanup_idempotent spec :
  (cleanupOpenAPISpec (cleanupOpenAPISpec spec).1).1 = (cleanupOpenAPISpec spec).1.
Proof.
  apply map_eq. intros k.
  destruct (decide (k = "components")) as [->|Hc].
  { rewrite !cleanup_components_lookup. apply cleanedComponents_idem. }
  destruct (decide (k = "tags")) as [->|Ht].
  { rewrite !cleanup_tags_lookup. apply cleanedTags_idem. }
  by rewrite cleanup_lookup_other.
Qed.

End cleanup_members.

(** ** The shared [components] object *)

Section sharing.
Implicit Types resp spec defaults doc c : gmap string JsVal.
Implicit Types paths : gmap string (gmap string JsVal).

Lemma adjustServers_insert root resp k v :
  k ≠ "servers" →
  adjustServers root (<[k := v]> resp) = insert k v <$> adjustServers root resp.
Proof.
  intros Hk. unfold adjustServers. destruct (_ && _); [|done].
  rewrite (get_obj_ext (<[k := v]> resp) resp "servers")
    by (by rewrite lookup_insert_ne).
  destruct (Js.get_obj resp "servers"); try done.
  destruct (mapM _ _); [|done]. simpl. f_equal.
  by apply insert_insert_ne.
Qed.

Lemma baseDocument_pruned template :
  baseDocument prunedDefaults template =
  match Js.own_props template !! "components" with
  | Some _ => baseDocument DEFAULT_TEMPLATE template
  | None => <["components" := JObj ∅]> (baseDocument DEFAULT_TEMPLATE template)
  end.
Proof.
  unfold baseDocument, prunedDefaults.
  destruct (Js.own_props template !! "components") as [w|] eqn:E.
  - f_equal. apply map_eq. intros k. rewrite !lookup_union.
    destruct (decide (k = "components")) as [->|Hk].
    + rewrite E. by rewrite !union_Some_l.
    + by rewrite lookup_insert_ne.
  - rewrite insert_insert_ne by done. f_equal.
    by rewrite insert_union_r.
Qed.

Lemma cleanup_shared_components spec :
  spec !! "components" = Some (JObj DEFAULT_components) →
  (cleanupOpenAPISpec (<["components" := JObj ∅]> spec)).1
  = (cleanupOpenAPISpec spec).1.
Proof.
  intros Hc. apply map_eq. intros k.
  destruct (decide (k = "components")) as [->|Hk].
  { rewrite !cleanup_components_lookup, lookup_insert_eq, Hc. by vm_compute. }
  destruct (decide (k = "tags")) as [->|Ht].
  { by rewrite !cleanup_tags_lookup, lookup_insert_ne. }
  by rewrite !cleanup_lookup_other, lookup_insert_ne.
Qed.

(** X18: the response to a request does not depend on the requests served
    before it: in every state in which requests can leave
    [DEFAULT_TEMPLATE], the handler answers as it does in the initial
    state. *)
Theorem handler_history_independent defaults red :
  reachable defaults →
  (handler defaults red).1 = (handler DEFAULT_TEMPLATE red).1.
Proof.
  intros Hr. destruct (reachable_inv _ Hr) as [-> | ->]; [done|].
  unfold handler.
  destruct (readSettings (settings red)) as [[[root template] ap]|] eqn:Hs.
  2:{ unfold generate. by rewrite Hs. }
  rewrite !(generate_eq _ _ _ _ _ Hs), baseDocument_pruned.
  destruct (Js.own_props template !! "components") as [w|] eqn:E.
  { destruct (adjustServers _ _); [|done]. bind_red.
    by destruct (eachNode _ _ _). }
  rewrite adjustServers_insert by done.
  destruct (adjustServers root (baseDocument DEFAULT_TEMPLATE template))
    as [resp|] eqn:Ha; [|done].
  simpl fmap. bind_red.
  destruct (eachNode _ _ _) as [paths|]; [|done]. bind_red. cbn [fst].
  do 2 f_equal. rewrite insert_insert_ne by done.
  apply cleanup_shared_components.
  rewrite lookup_insert_ne by done.
  rewrite (adjustServers_lookup _ _ _ _ Ha) by done.
  unfold baseDocument. rewrite lookup_insert_ne by done.
  rewrite lookup_union, E. done.
Qed.

Lemma handler_history_independent_witness :
  (handler (handler DEFAULT_TEMPLATE noRoutesExample).2 oneRouteExample).1
  = (handler DEFAULT_TEMPLATE oneRouteExample).1.
Proof.
  apply handler_history_independent. apply reachable_step, reachable_init.
Defined.

(** X19: what a request does to [DEFAULT_TEMPLATE].  A request answered
    with 200 under a template without [components] of its own leaves the
    [components] of [DEFAULT_TEMPLATE] empty; any other request leaves
    [DEFAULT_TEMPLATE] as it was. *)
Theorem handler_state defaults red :
  reachable defaults →
  (status (handler defaults red).1 = 200 → templateComponents red = None →
     (handler defaults red).2 = prunedDefaults) ∧
  (status (handler defaults red).1 ≠ 200 ∨ is_Some (templateComponents red) →
     (handler defaults red).2 = defaults).
Proof.
  intros Hr. unfold handler, templateComponents.
  destruct (generate defaults red) as [[doc d']|] eqn:G.
  2:{ cbn [fst snd status internalServerError]. split; [done|]. done. }
  cbn [fst snd status].
  apply generate_inv in G
    as (root & template & ap & resp & paths & -> & Ha & _ & _ & ->).
  destruct (Js.own_props template !! "components") as [w|] eqn:Et.
  { split; [done|]. done. }
  split; [|intros [?|[? ?]]; done]. intros _ _.
  rewrite cleanup_snd.
  assert (Hc : (<["paths" := JObj (JObj <$> paths)]> resp) !! "components"
               = defaults !! "components").
  { rewrite lookup_insert_ne by done.
    rewrite (adjustServers_lookup _ _ _ _ Ha) by done.
    unfold baseDocument. rewrite lookup_insert_ne by done.
    by rewrite lookup_union_r. }
  destruct (reachable_inv _ Hr) as [-> | ->].
  - rewrite (cleanupComponents_JObj _ DEFAULT_components) by (by rewrite Hc).
    reflexivity.
  - rewrite (cleanupComponents_JObj _ ∅) by (by rewrite Hc).
    reflexivity.
Qed.

Lemma handler_state_witness :
  (status (handler prunedDefaults apiPrefixExample).1 = 200 →
   templateComponents apiPrefixExample = None →
     (handler prunedDefaults apiPrefixExample).2 = prunedDefaults) ∧
  (status (handler prunedDefaults apiPrefixExample).1 ≠ 200 ∨
   is_Some (templateComponents apiPrefixExample) →
     (handler prunedDefaults apiPrefixExample).2 = prunedDefaults).
Proof.
  apply handler_state.
  change prunedDefaults with (handler DEFAULT_TEMPLATE noRoutesExample).2.
  apply reachable_step, reachable_init.
Defined.

Lemma baseDocument_insert defaults template template' v :
  Js.own_props template' = <["components" := v]> (Js.own_props template) →
  baseDocument defaults template'
  = <["components" := v]> (baseDocument defaults template).
Proof.
  intros H. unfold baseDocument. rewrite H.
  rewrite insert_insert_ne by done. f_equal. by rewrite insert_union_l.
Qed.

Lemma cleanup_pruned_components spec c :
  spec !! "components" = Some (JObj c) →
  (cleanupOpenAPISpec
     (<["components" := JObj (foldl pruneCategory c categories)]> spec)).1
  = (cleanupOpenAPISpec spec).1.
Proof.
  intros Hc. apply map_eq. intros k.
  destruct (decide (k = "components")) as [->|Hk].
  { rewrite !cleanup_components_lookup, lookup_insert_eq, Hc.
    change (cleanedComponents (Some (JObj ?x)))
      with (if bool_decide (foldl pruneCategory x categories = ∅) then None
            else Some (JObj (foldl pruneCategory x categories))).
    by rewrite pruneCategories_idem. }
  destruct (decide (k = "tags")) as [->|Ht].
  { by rewrite !cleanup_tags_lookup, lookup_insert_ne. }
  by rewrite !cleanup_lookup_other, lookup_insert_ne.
Qed.

(** X20: the pruning of the [components] of the template of the settings
    does not show in later responses: a host whose template has the pruned
    [components] object gets the response of the host with the original
    one. *)
Theorem template_pruning_invisible defaults red red' root template template' ap c :
  readSettings (settings red) = Ok (root, template, ap) →
  readSettings (settings red') = Ok (root, template', ap) →
  nodes red' = nodes red → getNode red' = getNode red →
  Js.own_props template !! "components" = Some (JObj c) →
  Js.own_props template'
  = <["components" := JObj (foldl pruneCategory c categories)]>
      (Js.own_props template) →
  (handler defaults red').1 = (handler defaults red).1.
Proof.
  intros Hs Hs' Hn Hg Hc Ht. unfold handler.
  rewrite (generate_eq _ _ _ _ _ Hs), (generate_eq _ _ _ _ _ Hs'), Hn, Hg.
  rewrite (baseDocument_insert defaults template template' _ Ht).
  rewrite adjustServers_insert by done.
  destruct (adjustServers root (baseDocument defaults template))
    as [resp|] eqn:Ha; [|done].
  simpl fmap. bind_red.
  destruct (eachNode _ _ _) as [paths|]; [|done]. bind_red. cbn [fst].
  do 2 f_equal. rewrite insert_insert_ne by done.
  apply cleanup_pruned_components.
  rewrite lookup_insert_ne by done.
  rewrite (adjustServers_lookup _ _ _ _ Ha) by done.
  unfold baseDocument. rewrite lookup_insert_ne by done.
  by rewrite lookup_union_l'.
Qed.

Lemma template_pruning_invisible_witness :
  (handler DEFAULT_TEMPLATE (templateExample securedTemplatePruned)).1
  = (handler DEFAULT_TEMPLATE (templateExample securedTemplate)).1.
Proof.
  apply (template_pruning_invisible DEFAULT_TEMPLATE
           (templateExample securedTemplate)
           (templateExample securedTemplatePruned)
           JUndefined securedTemplate securedTemplatePruned (JArr [])
           securedComponents).
  - reflexivity.
  - reflexivity.
  - reflexivity.
  - reflexivity.
  - reflexivity.
  - reflexivity.
Defined.

End sharing.

(** ** Slashes at the ends of a URL *)

Section slashes.
Implicit Types s t p q r w x u : string.
Implicit Types c a b : ascii.
Implicit Types m : string → option string.

Local Abbreviation R := (replace_go match_regexColons convToSwaggerPath 0).
Local Abbreviation MC := (matches_go match_regexColons 0).

(** A text without colon parameter is copied. *)
Lemma R_no_match s : MC s = [] → R s = s.
Proof.
  induction s as [|c t IH]; [done|]. intros H.
  apply matches_nil_cons in H as [Hm Ht].
  rewrite R_nomatch by done. by rewrite IH.
Qed.

(** X21: for a URL without colon parameter, the path key is the URL with
    its slashes normalised: a leading slash added if there is none, one
    final slash removed. *)
Theorem endPoint_no_params url :
  colonParams url = [] → endPoint url = normalizePath url.
Proof.
  unfold colonParams, matchAll. intros H. apply fmap_nil_inv in H.
  unfold endPoint, replaceAll, normalizePath. by rewrite R_no_match.
Qed.

Lemma endPoint_no_params_witness : endPoint "users/" = normalizePath "users/".
Proof. apply endPoint_no_params. reflexivity. Defined.

Lemma replace_go_snoc m f k s :
  m "/" = None →
  (∀ c t, m (String c t +:+ "/") = m (String c t)) →
  (∀ t x, m t = Some x → (String.length x ≤ String.length t)%nat) →
  (k ≤ String.length s)%nat →
  replace_go m f k (s +:+ "/") = replace_go m f k s +:+ "/".
Proof.
  intros H1 H2 H3. revert k.
  induction s as [|c t IH]; intros k Hk.
  - simpl in Hk. assert (k = 0) as -> by lia. simpl. by rewrite H1.
  - change (String c t +:+ "/") with (String c (t +:+ "/")).
    destruct k as [|k]; simpl; [|apply IH; simpl in Hk; lia].
    change (String c (t +:+ "/")) with (String c t +:+ "/").
    rewrite H2. destruct (m (String c t)) as [x|] eqn:Hm.
    + rewrite IH, str_app_assoc; [done|].
      apply H3 in Hm. simpl in Hm. lia.
    + rewrite IH by lia. done.
Qed.

Lemma R_snoc s : R (s +:+ "/") = R s +:+ "/".
Proof.
  apply replace_go_snoc; [done|apply match_regexColons_snoc| |lia].
  intros t x (r & -> & ->)%match_regexColons_Some. simpl.
  pose proof (takeWord_length r). lia.
Qed.

Lemma endsWith1_cons a c t :
  t ≠ "" → Str.endsWith (String a "") (String c t) = Str.endsWith (String a "") t.
Proof.
  intros Ht.
  change (Str.endsWith (String a "") (String c t))
    with (String.eqb (String c t) (String a "") || Str.endsWith (String a "") t).
  destruct t; [done|]. simpl. by destruct (Ascii.eqb c a).
Qed.

Lemma endsWith1_app a p q :
  q ≠ "" → Str.endsWith (String a "") (p +:+ q) = Str.endsWith (String a "") q.
Proof.
  intros Hq. induction p as [|c p IH]; [done|].
  change (String c p +:+ q) with (String c (p +:+ q)).
  rewrite endsWith1_cons; [done|]. by destruct p, q.
Qed.

Lemma R_nonempty s : s ≠ "" → R s ≠ "".
Proof.
  destruct s as [|c t]; [done|]. intros _. by destruct (R_cons c t) as [u ->].
Qed.

Lemma endsWith1_word a w :
  Str.isWord a = false → allb Str.isWord w = true →
  Str.endsWith (String a "") w = false.
Proof.
  intros Ha. induction w as [|c w IH]; [done|]. simpl.
  intros [Hc Hw]%andb_true_iff. rewrite (IH Hw), orb_false_r.
  destruct (Ascii.eqb c a) eqn:E; [|done]. apply Ascii.eqb_eq in E. congruence.
Qed.

Lemma R_endsWith_aux n s :
  (String.length s ≤ n)%nat → Str.endsWith "/" (R s) = Str.endsWith "/" s.
Proof.
  revert s. induction n as [|n IH]; intros [|c t] Hlen; try done.
  { simpl in Hlen. lia. }
  simpl in Hlen.
  destruct (match_regexColons (String c t)) as [x|] eqn:Hm.
  - apply match_regexColons_Some in Hm as (r & Hr & _).
    rewrite Hr, R_match. injection Hr as -> ->.
    set (w := Str.takeWord r). set (q := Str.drop (String.length w) r).
    assert (Hsplit : r = w +:+ q) by apply takeWord_split.
    assert (Hq : (String.length q ≤ n)%nat).
    { pose proof (str_drop_length (String.length w) r). unfold q.
      simpl in Hlen. lia. }
    destruct (decide (q = "")) as [Eq|Eq].
    + rewrite Eq. rewrite Eq, str_app_nil_r in Hsplit. rewrite Hsplit.
      change (R "") with "".
      replace ("/{" +:+ w +:+ "}" +:+ "") with (("/{" +:+ w) +:+ "}")
        by (by rewrite !str_app_assoc).
      rewrite endsWith1_app by done.
      change ("/:" +:+ w) with (String "/" (String ":" w)).
      destruct (decide (w = "")) as [->|Hw]; [done|].
      rewrite (endsWith1_cons "/" "/" (String ":" w)) by done.
      rewrite (endsWith1_cons "/" ":" w) by done.
      rewrite (endsWith1_word "/" w); [done|done|apply takeWord_word].
    + replace ("/{" +:+ w +:+ "}" +:+ R q) with (("/{" +:+ w +:+ "}") +:+ R q)
        by (by rewrite !str_app_assoc).
      rewrite endsWith1_app by (by apply R_nonempty).
      rewrite (IH q Hq).
      replace ("/:" +:+ r) with (("/:" +:+ w) +:+ q)
        by (by rewrite str_app_assoc, <-Hsplit).
      by rewrite endsWith1_app.
  - rewrite R_nomatch by done.
    destruct (decide (t = "")) as [->|Ht]; [done|].
    rewrite !endsWith1_cons by (done || by apply R_nonempty).
    apply IH. lia.
Qed.

(** The replacement keeps a final slash, and adds none. *)
Lemma R_endsWith s : Str.endsWith "/" (R s) = Str.endsWith "/" s.
Proof. by apply (R_endsWith_aux (String.length s)). Qed.

Lemma ensureLeadingSlash_endsWith p :
  p ≠ "" → Str.endsWith "/" (ensureLeadingSlash p) = Str.endsWith "/" p.
Proof.
  intros Hp. unfold ensureLeadingSlash. destruct (Str.startsWith "/" p); [done|].
  change ("/" +:+ p) with (String "/" p). by rewrite endsWith1_cons.
Qed.

Lemma ensureLeadingSlash_snoc p :
  p ≠ "" → ensureLeadingSlash (p +:+ "/") = ensureLeadingSlash p +:+ "/".
Proof.
  intros Hp. unfold ensureLeadingSlash.
  rewrite startsWith1_snoc by (by left). by destruct (Str.startsWith "/" p).
Qed.

Lemma stripTerminalSlash_snoc p : p ≠ "" → stripTerminalSlash (p +:+ "/") = p.
Proof.
  intros Hp. unfold stripTerminalSlash.
  rewrite endsWith_app, str_length_app. simpl.
  destruct p as [|c p]; [done|]. simpl.
  replace (1 <? S (String.length p + 1))%nat with true
    by (symmetry; apply Nat.ltb_lt; lia).
  apply (slice_snoc (String c p) "/").
Qed.

Lemma stripTerminalSlash_id p :
  Str.endsWith "/" p = false → stripTerminalSlash p = p.
Proof. intros H. unfold stripTerminalSlash. by rewrite H, andb_false_r. Qed.

(** X22: one final slash makes no difference: a URL that does not end with
    a slash and the same URL followed by a slash have the same path key. *)
Theorem endPoint_trailing_slash url :
  Str.endsWith "/" url = false → endPoint (url +:+ "/") = endPoint url.
Proof.
  intros H. unfold endPoint, replaceAll.
  destruct (decide (url = "")) as [->|Hne]; [done|].
  rewrite R_snoc, ensureLeadingSlash_snoc by (by apply R_nonempty).
  rewrite stripTerminalSlash_snoc.
  2:{ by destruct (ensureLeadingSlash_shape (R url)) as [t ->]. }
  symmetry. apply stripTerminalSlash_id.
  rewrite ensureLeadingSlash_endsWith by (by apply R_nonempty).
  by rewrite R_endsWith.
Qed.

Lemma endPoint_trailing_slash_witness :
  endPoint ("/users/:id" +:+ "/") = endPoint "/users/:id".
Proof. apply endPoint_trailing_slash. reflexivity. Defined.

(** X23: a leading slash makes no difference, unless a colon follows it: a
    URL that starts neither with a slash nor with a colon and the same URL
    after a slash have the same path key. *)
Theorem endPoint_leading_slash url :
  Str.startsWith "/" url = false → Str.startsWith ":" url = false →
  endPoint ("/" +:+ url) = endPoint url.
Proof.
  intros H1 H2. unfold endPoint, replaceAll. f_equal.
  change ("/" +:+ url) with (String "/" url).
  rewrite R_nomatch.
  2:{ destruct url as [|c t]; [done|]. unfold match_regexColons.
      change (Str.is_char ":" c && true = false) in H2.
      rewrite andb_true_r in H2. by rewrite H2. }
  rewrite ensureLeadingSlash_id. unfold ensureLeadingSlash.
  by rewrite (startsWith1_R "/"), H1.
Qed.

Lemma endPoint_leading_slash_witness :
  endPoint ("/" +:+ "users/:id") = endPoint "users/:id".
Proof. apply endPoint_leading_slash; reflexivity. Defined.

End slashes.

(** ** Documentation nodes *)

Section constructor.
Implicit Types this node cfg op m : gmap string JsVal.

Lemma SwaggerDoc_eq this cfg :
  SwaggerDoc this (JObj cfg) =
  Ok (foldl (λ t k, <[k := docMember cfg k]> t) this docMembers).
Proof. done. Qed.

Lemma assigned_lookup cfg this keys k :
  foldl (λ t k, <[k := docMember cfg k]> t) this keys !! k =
  if bool_decide (k ∈ keys) then Some (docMember cfg k) else this !! k.
Proof.
  revert this. induction keys as [|key keys IH]; intros this; [done|].
  simpl. rewrite IH. destruct (decide (k = key)) as [->|Hne].
  - rewrite (bool_decide_eq_true_2 (key ∈ key :: keys))
      by (apply elem_of_cons; by left).
    rewrite lookup_insert_eq. by destruct (bool_decide _).
  - rewrite lookup_insert_ne by done.
    rewrite (bool_decide_ext (k ∈ key :: keys) (k ∈ keys)); [done|].
    rewrite elem_of_cons. split; [by intros [?|?]|by right].
Qed.

Lemma constructedDoc_lookup cfg k :
  k ∈ docMembers → constructedDoc cfg !! k = Some (docMember cfg k).
Proof.
  unfold constructedDoc. induction docMembers as [|key keys IH]; simpl.
  - by intros ?%elem_of_nil.
  - intros [->|Hin]%elem_of_cons; [apply lookup_insert_eq|].
    destruct (decide (k = key)) as [->|Hne]; [apply lookup_insert_eq|].
    rewrite lookup_insert_ne by done. by apply IH.
Qed.

Lemma buildOperation_ext ap name method ep m m' :
  Forall (λ k, Js.get_obj m k = Js.get_obj m' k) docMembers →
  buildOperation ap name method ep (JObj m)
  = buildOperation ap name method ep (JObj m').
Proof.
  intros Hall. unfold buildOperation, operationSummary. rewrite !get_JObj.
  unfold docMembers in Hall.
  repeat (apply Forall_cons in Hall as [-> Hall]). done.
Qed.

(** X24: the operation depends on the documentation node through the seven
    members [summary], [description], [tags], [parameters], [responses],
    [requestBody] and [deprecated] only: two nodes that agree on them give
    the same operation, or both an exception. *)
Theorem buildOperation_reads ap name method ep m m' :
  (∀ k, k ∈ docMembers → Js.get_obj m k = Js.get_obj m' k) →
  buildOperation ap name method ep (JObj m)
  = buildOperation ap name method ep (JObj m').
Proof.
  intros H. apply buildOperation_ext. apply Forall_forall. intros k Hk.
  by apply H.
Qed.

Lemma buildOperation_reads_witness :
  buildOperation (JArr []) JUndefined (JStr "post") "/users"
    (JObj (<["wires" := JArr []]> createUserDoc))
  = buildOperation (JArr []) JUndefined (JStr "post") "/users" (JObj createUserDoc).
Proof.
  apply buildOperation_reads. intros k Hk. apply get_obj_ext.
  apply lookup_insert_ne. intros <-. unfold docMembers in Hk.
  repeat (apply elem_of_cons in Hk as [Hk|Hk]; [discriminate Hk|]).
  by apply elem_of_nil in Hk.
Defined.

(** X25: for a configuration object, the constructor makes a node whose
    seven members are those of the configuration, with [parameters],
    [responses], [requestBody] and [deprecated] replaced by [[]], [{}],
    [null] and [false] when falsy; it keeps every other member of the
    node, and the operation of the node is the operation of its seven
    members, whatever else [createNode] has put on the node. *)
Theorem SwaggerDoc_operation this cfg ap name method ep :
  ∃ node, SwaggerDoc this (JObj cfg) = Ok node ∧
    (∀ k, k ∈ docMembers → node !! k = Some (docMember cfg k)) ∧
    (∀ k, k ∉ docMembers → node !! k = this !! k) ∧
    buildOperation ap name method ep (JObj node)
    = buildOperation ap name method ep (JObj (constructedDoc cfg)).
Proof.
  eexists. split; [apply SwaggerDoc_eq|].
  assert (Hin : ∀ k, k ∈ docMembers →
    foldl (λ t k, <[k := docMember cfg k]> t) this docMembers !! k
    = Some (docMember cfg k)).
  { intros k Hk. by rewrite assigned_lookup, bool_decide_eq_true_2. }
  split; [done|]. split.
  - intros k Hk. by rewrite assigned_lookup, bool_decide_eq_false_2.
  - apply buildOperation_ext. apply Forall_forall. intros k Hk.
    unfold Js.get_obj.
    by rewrite (Hin k Hk), (constructedDoc_lookup cfg k Hk).
Qed.

End constructor.
